(** * MailMind: ingestion, storage and annotation cache

    A shallow embedding of the storage layer
    ([src/storage/sqlite_manager.py]), the ingestion pipeline
    ([src/email_processing/fetch_emails.py]) and the analysis producer
    ([src/ai_analysis/ai_analyzer.py]).

    SQL tables are lists of rows, with the constraints of the schema
    (UNIQUE, NOT NULL, FOREIGN KEY) written out in the statements that
    touch them.  The key/value checkpoint is a [gmap string string].
    External collaborators (mailbox provider, language model, clock,
    HTML cleaner, JSON parser) are parameters of the functions that call
    them.

    Conventions:
    - a Python [str] is a [string] of 8-bit characters; [strip] and
      [lower] act on the ASCII range;
    - a parsed JSON number is an integer or a finite fraction;
    - an exception caught by an [except] branch is the [None] (or the
      named failure constructor) of the call that raises it, and the
      branch is the match arm on it;
    - statements on the store succeed unless a constraint of the schema
      rejects them. *)

From Stdlib Require Import ZArith Ascii String List.
From Stdlib.Strings Require Import Byte.
From Stdlib Require Import DecimalString DecimalPos DecimalZ Sorted.
From stdpp Require Import base decidable option list gmap strings.

Local Open Scope string_scope.
Local Open Scope Z_scope.

(** ** Python strings *)

Module PyStr.

(** [s[:n]] *)
Fixpoint take (n : nat) (s : string) : string :=
  match n, s with
  | O, _ => EmptyString
  | S _, EmptyString => EmptyString
  | S n', String c s' => String c (take n' s')
  end.

(** [len(s)] *)
Definition len (s : string) : nat := String.length s.

(** [s.startswith(p)] *)
Fixpoint startswith (p s : string) : bool :=
  match p, s with
  | EmptyString, _ => true
  | String _ _, EmptyString => false
  | String a p', String b s' => if Ascii.eqb a b then startswith p' s' else false
  end.

Fixpoint drop (n : nat) (s : string) : string :=
  match n, s with
  | O, _ => s
  | S _, EmptyString => EmptyString
  | S n', String _ s' => drop n' s'
  end.

(** [s.replace(old, "")] for a non-empty [old]: scan left to right and
    drop every non-overlapping occurrence. *)
Fixpoint remove_fuel (fuel : nat) (old s : string) : string :=
  match fuel with
  | O => s
  | S fuel' =>
      match s with
      | EmptyString => EmptyString
      | String c s' =>
          if startswith old s
          then remove_fuel fuel' old (drop (len old) s)
          else String c (remove_fuel fuel' old s')
      end
  end.

Definition remove (old s : string) : string := remove_fuel (len s) old s.

(** Characters removed by [str.strip()] with no argument. *)
Definition is_space (c : ascii) : bool :=
  let n := nat_of_ascii c in
  ((9 <=? n)%nat && (n <=? 13)%nat) || ((28 <=? n)%nat && (n <=? 32)%nat).

Fixpoint lstrip (s : string) : string :=
  match s with
  | EmptyString => EmptyString
  | String c s' => if is_space c then lstrip s' else s
  end.

Fixpoint rstrip (s : string) : string :=
  match s with
  | EmptyString => EmptyString
  | String c s' =>
      match rstrip s' with
      | EmptyString => if is_space c then EmptyString else String c EmptyString
      | r => String c r
      end
  end.

Definition strip (s : string) : string := rstrip (lstrip s).

(** [s.lower()] on the ASCII range. *)
Definition lower_ascii (c : ascii) : ascii :=
  let n := nat_of_ascii c in
  if ((65 <=? n)%nat && (n <=? 90)%nat)%bool then ascii_of_nat (n + 32) else c.

Fixpoint lower (s : string) : string :=
  match s with
  | EmptyString => EmptyString
  | String c s' => String (lower_ascii c) (lower s')
  end.

End PyStr.

(** ** Values produced by [json.loads] *)

#[warnings="-register-all"]
Inductive json : Type :=
  | JNull
  | JBool (b : bool)
  | JInt (z : Z)
  | JFloat (num : Z) (den : positive)   (* a finite float, as a fraction *)
  | JStr (s : string)
  | JList (l : list json)
  | JDict (kv : list (string * json)).

(** [d.get(k)] on the bindings of a dict. *)
Fixpoint dict_get (k : string) (kv : list (string * json)) : option json :=
  match kv with
  | [] => None
  | (k', v) :: kv' => if String.eqb k k' then Some v else dict_get k kv'
  end.

(** ** Category classifier ([sqlite_manager.map_labels_to_category]) *)

Definition map_labels_to_category (labels : option (list string)) : string :=
  let labels : gset string := list_to_set (default [] labels) in
  if decide ("INBOX" ∈ labels) then "Inbox"
  else if decide ("SENT" ∈ labels) then "Sent"
  else if decide ("DRAFT" ∈ labels) then "Drafts"
  else if decide ("CATEGORY_PROMOTIONS" ∈ labels) then "Promotions"
  else if decide ("IMPORTANT" ∈ labels) then "Important"
  else "Other".

(** ** The store ([sqlite_manager.SQLiteManager])

    One record per table row.  Columns that [upsert_email] binds from a
    [str] argument are [string]; the two [Optional[str]] arguments and the
    nullable attachment columns are [option]. *)

Record email_row := {
  e_id : Z;
  e_gmail_id : string;
  e_thread_id : option string;
  e_history_id : option string;
  e_sender : string;
  e_to_recipients : string;
  e_subject : string;
  e_date : string;
  e_snippet : string;
  e_body : string;
  e_labels : string;
  e_category : string;
  e_created_at : string;
  e_updated_at : string;
  e_is_read : Z;
  e_ai_analyzed : bool
}.

Record attachment_row := {
  a_id : Z;
  a_email_id : Z;
  a_filename : string;
  a_size : Z;
  a_content_preview : option string;
  a_content : option (list byte);
  a_created_at : string
}.

(** A row of [email_analysis].  The two JSON-array columns hold the value
    whose [json.dumps] text is stored. *)
Record analysis_row := {
  r_id : Z;
  r_email_id : Z;
  r_gmail_id : string;
  r_summary : string;
  r_priority_score : Z;
  r_priority_reason : string;
  r_sentiment : string;
  r_draft_reply : string;
  r_action_required : bool;
  r_suggested_actions : json;
  r_key_topics : json;
  r_analysis_timestamp : string;
  r_processing_time_ms : Z
}.

(** The database: three tables with their AUTOINCREMENT counters, and
    the [sync_metadata] key/value table. *)
Record db := {
  emails : list email_row;
  emails_seq : Z;
  attachments : list attachment_row;
  attachments_seq : Z;
  sync_metadata : gmap string string;
  email_analysis : list analysis_row;
  email_analysis_seq : Z
}.

Definition empty_db : db :=
  {| emails := []; emails_seq := 0; attachments := []; attachments_seq := 0;
     sync_metadata := ∅; email_analysis := []; email_analysis_seq := 0 |}.

Definition set_emails (d : db) (es : list email_row) (seq : Z) : db :=
  {| emails := es; emails_seq := seq;
     attachments := attachments d; attachments_seq := attachments_seq d;
     sync_metadata := sync_metadata d;
     email_analysis := email_analysis d; email_analysis_seq := email_analysis_seq d |}.

Definition set_attachments (d : db) (rows : list attachment_row) (seq : Z) : db :=
  {| emails := emails d; emails_seq := emails_seq d;
     attachments := rows; attachments_seq := seq;
     sync_metadata := sync_metadata d;
     email_analysis := email_analysis d; email_analysis_seq := email_analysis_seq d |}.

Definition set_sync_metadata (d : db) (m : gmap string string) : db :=
  {| emails := emails d; emails_seq := emails_seq d;
     attachments := attachments d; attachments_seq := attachments_seq d;
     sync_metadata := m;
     email_analysis := email_analysis d; email_analysis_seq := email_analysis_seq d |}.

Definition set_email_analysis (d : db) (rows : list analysis_row) (seq : Z) : db :=
  {| emails := emails d; emails_seq := emails_seq d;
     attachments := attachments d; attachments_seq := attachments_seq d;
     sync_metadata := sync_metadata d;
     email_analysis := rows; email_analysis_seq := seq |}.

(** *** Sync metadata *)

(** [INSERT ... ON CONFLICT(key) DO UPDATE SET value = excluded.value] *)
Definition update_sync_metadata (d : db) (key value : string) : db :=
  set_sync_metadata d (<[key := value]> (sync_metadata d)).

Definition get_sync_metadata (d : db) (key : string) : option string :=
  sync_metadata d !! key.

(** *** Email upsert *)

(** The keyword arguments of [upsert_email]. *)
Record upsert_args := {
  u_gmail_id : string;
  u_thread_id : option string;
  u_history_id : option string;
  u_sender : string;
  u_to_recipients : string;
  u_subject : string;
  u_date : string;
  u_snippet : string;
  u_body : string;
  u_labels : string;
  u_category : string;
  u_is_read : option Z
}.

(** [x or default] on a [str]. *)
Definition str_or (x default : string) : string :=
  if decide (x = "") then default else x.

(** [1 if (is_read and int(is_read) == 1) else 0] *)
Definition is_read_val (is_read : option Z) : Z :=
  match is_read with
  | Some v => if (negb (v =? 0) && (v =? 1))%bool then 1 else 0
  | None => 0
  end.

(** The [DO UPDATE SET] clause applied to the conflicting row; [excluded_is_read]
    is the value bound to the [is_read] placeholder. *)
Definition do_update_email (now : string) (a : upsert_args)
    (excluded_is_read : option Z) (r : email_row) : email_row :=
  {| e_id := e_id r;
     e_gmail_id := e_gmail_id r;
     e_thread_id := u_thread_id a;
     e_history_id := u_history_id a;
     e_sender := u_sender a;
     e_to_recipients := str_or (u_to_recipients a) "";
     e_subject := u_subject a;
     e_date := u_date a;
     e_snippet := u_snippet a;
     e_body := u_body a;
     e_labels := str_or (u_labels a) "";
     e_category := str_or (u_category a) "Other";
     e_created_at := e_created_at r;
     e_updated_at := now;
     e_is_read := match excluded_is_read with
                  | Some v => v
                  | None => e_is_read r
                  end;
     e_ai_analyzed := e_ai_analyzed r |}.

Definition new_email (now : string) (id : Z) (a : upsert_args)
    (excluded_is_read : option Z) : email_row :=
  {| e_id := id;
     e_gmail_id := u_gmail_id a;
     e_thread_id := u_thread_id a;
     e_history_id := u_history_id a;
     e_sender := u_sender a;
     e_to_recipients := str_or (u_to_recipients a) "";
     e_subject := u_subject a;
     e_date := u_date a;
     e_snippet := u_snippet a;
     e_body := u_body a;
     e_labels := str_or (u_labels a) "";
     e_category := str_or (u_category a) "Other";
     e_created_at := now;
     e_updated_at := now;
     e_is_read := default 0 excluded_is_read;
     e_ai_analyzed := false |}.

Definition has_gmail_id (g : string) (r : email_row) : bool :=
  bool_decide (e_gmail_id r = g).

(** [upsert_email]: update the row with this [gmail_id] in place, or
    append a new row with the next id; then select the id back. *)
Definition upsert_email (d : db) (now : string) (a : upsert_args) : db * Z :=
  let excluded_is_read := Some (is_read_val (u_is_read a)) in
  match List.find (has_gmail_id (u_gmail_id a)) (emails d) with
  | Some old =>
      (set_emails d
         (List.map (fun r => if has_gmail_id (u_gmail_id a) r
                             then do_update_email now a excluded_is_read r else r)
                   (emails d))
         (emails_seq d),
       e_id old)
  | None =>
      let id := emails_seq d + 1 in
      (set_emails d (emails d ++ [new_email now id a excluded_is_read]) id, id)
  end.

(** *** Attachments *)

Definition attachment_key (r : attachment_row) : Z * string * Z :=
  (a_email_id r, a_filename r, a_size r).

Definition has_attachment_key (k : Z * string * Z) (r : attachment_row) : bool :=
  bool_decide (attachment_key r = k).

(** [COALESCE(x, y)] *)
Definition coalesce {A} (x y : option A) : option A :=
  match x with
  | Some _ => x
  | None => y
  end.

(** [size if size is not None else (len(content) if content else 0)] *)
Definition attachment_size (size : option Z) (content : option (list byte)) : Z :=
  match size with
  | Some s => s
  | None =>
      match content with
      | Some (_ :: _ as c) => Z.of_nat (length c)
      | _ => 0
      end
  end.

(** The [DO UPDATE SET] clause of [insert_attachment]. *)
Definition do_update_attachment (preview : option string) (content : option (list byte))
    (r : attachment_row) : attachment_row :=
  {| a_id := a_id r;
     a_email_id := a_email_id r;
     a_filename := a_filename r;
     a_size := a_size r;
     a_content_preview := coalesce preview (a_content_preview r);
     a_content := coalesce content (a_content r);
     a_created_at := a_created_at r |}.

(** [FOREIGN KEY(email_id) REFERENCES emails(id)], with foreign keys on. *)
Definition email_exists (d : db) (email_id : Z) : bool :=
  bool_decide (email_id ∈ List.map e_id (emails d)).

(** [insert_attachment]: [None] is the result of the [except] branch
    (the statement raised and nothing was written). *)
Definition insert_attachment (d : db) (now : string) (email_id : Z) (filename : string)
    (content : option (list byte)) (content_preview : option string)
    (size : option Z) : db * option Z :=
  let size := attachment_size size content in
  let filename := str_or filename "unknown" in
  let preview := Some (default "" content_preview) in
  let key := (email_id, filename, size) in
  match List.find (has_attachment_key key) (attachments d) with
  | Some old =>
      (set_attachments d
         (List.map (fun r => if has_attachment_key key r
                             then do_update_attachment preview content r else r)
                   (attachments d))
         (attachments_seq d),
       Some (a_id old))
  | None =>
      if email_exists d email_id then
        let id := attachments_seq d + 1 in
        (set_attachments d
           (attachments d ++
              [{| a_id := id; a_email_id := email_id; a_filename := filename;
                  a_size := size; a_content_preview := preview;
                  a_content := content; a_created_at := now |}])
           id,
         Some id)
      else (d, None)
  end.

(** ** Ingestion pipeline ([fetch_emails.EmailFetcher]) *)

(** [' '.join(text.split())]: the words of [text], walking it once. *)
Fixpoint split_ws (cur : string) (s : string) : list string :=
  match s with
  | EmptyString => if decide (cur = "") then [] else [cur]
  | String c s' =>
      if PyStr.is_space c
      then (if decide (cur = "") then split_ws "" s' else cur :: split_ws "" s')
      else split_ws (cur ++ String c EmptyString) s'
  end.

(** [_clean_email_content]; after the join there is no carriage return
    left to replace and nothing left to strip. *)
Definition _clean_email_content (text : string) : string :=
  if decide (text = "") then "" else String.concat " " (split_ws "" text).

(** What the provider returns for one message, after the header lookup
    and the walk over the payload parts: the header values, the Gmail
    metadata, the joined text parts and the attachments found. *)
Record attachment_item := {
  att_filename : string;
  att_size : Z;
  att_content : option (list byte);
  att_content_preview : option string
}.

Record full_message := {
  m_subject : option string;
  m_from : option string;
  m_to : option string;
  m_date : option string;
  m_thread_id : option string;
  m_history_id : option string;
  m_snippet : string;
  m_label_ids : list string;
  m_body : string;
  m_attachments : list attachment_item
}.

(** Outcome of [messages().list(...).execute()]. *)
Inductive list_result :=
  | ListRaises
  | Listed (messages : list string) (nextPageToken : option string).

(** The mailbox collaborator: listing by page token and page size, and
    the full fetch of one message ([None] when the call raises). *)
Record mailbox := {
  list_messages : option string -> Z -> list_result;
  get_message : string -> option full_message
}.

(** The dict [_process_email] returns. *)
Record email_dict := {
  ed_id : Z;
  ed_gmail_id : string;
  ed_thread_id : option string;
  ed_sender : string;
  ed_to_recipients : string;
  ed_subject : string;
  ed_date : string;
  ed_snippet : string;
  ed_body : string;
  ed_category : string;
  ed_labels : list string;
  ed_is_read : Z;
  ed_attachments : nat
}.

(** The state threaded through the ingestion code: the store and the
    list of message ids whose full content was requested from the
    provider (most recent last). *)
Record ingest_state := {
  st_db : db;
  st_fetched : list string
}.

Definition _categorize_email (labels : list string) : string :=
  map_labels_to_category (Some labels).

(** The attachment loop of [_process_email]. *)
Fixpoint store_attachments (d : db) (now : string) (email_id : Z)
    (atts : list attachment_item) : db :=
  match atts with
  | [] => d
  | att :: rest =>
      let '(d', _) := insert_attachment d now email_id (att_filename att)
                        (att_content att) (att_content_preview att)
                        (Some (att_size att)) in
      store_attachments d' now email_id rest
  end.

Definition _process_email (mb : mailbox) (now : string) (st : ingest_state)
    (email_id : string) : ingest_state * option email_dict :=
  let fetched := (st_fetched st ++ [email_id])%list in
  match get_message mb email_id with
  | None => ({| st_db := st_db st; st_fetched := fetched |}, None)
  | Some full_msg =>
      let subject := default "No Subject" (m_subject full_msg) in
      let sender := default "Unknown Sender" (m_from full_msg) in
      let to_recipients := default "" (m_to full_msg) in
      let date := default "Unknown Date" (m_date full_msg) in
      let snippet := _clean_email_content (m_snippet full_msg) in
      let labels := m_label_ids full_msg in
      let category := _categorize_email labels in
      let is_read := if decide ("UNREAD" ∈ labels) then 0 else 1 in
      let body := _clean_email_content (m_body full_msg) in
      let '(d1, db_email_id) :=
        upsert_email (st_db st) now
          {| u_gmail_id := email_id;
             u_thread_id := m_thread_id full_msg;
             u_history_id := m_history_id full_msg;
             u_sender := sender;
             u_to_recipients := to_recipients;
             u_subject := subject;
             u_date := date;
             u_snippet := snippet;
             u_body := body;
             u_labels := String.concat "," labels;
             u_category := category;
             u_is_read := Some is_read |} in
      let d2 := store_attachments d1 now db_email_id (m_attachments full_msg) in
      ({| st_db := d2; st_fetched := fetched |},
       Some {| ed_id := db_email_id;
               ed_gmail_id := email_id;
               ed_thread_id := m_thread_id full_msg;
               ed_sender := sender;
               ed_to_recipients := to_recipients;
               ed_subject := subject;
               ed_date := date;
               ed_snippet := snippet;
               ed_body := body;
               ed_category := category;
               ed_labels := labels;
               ed_is_read := is_read;
               ed_attachments := length (m_attachments full_msg) |})
  end.

(** What one call of [fetch_email_batch] yields: the returned pair, and
    the skip counter it logs. *)
Record batch_result := {
  b_emails : list email_dict;
  b_next_page_token : option string;
  b_skipped_count : nat
}.

(** [page_token and page_token.strip()] *)
Definition usable_token (page_token : option string) : option string :=
  match page_token with
  | Some t => if decide (t = "") then None
              else if decide (PyStr.strip t = "") then None else Some t
  | None => None
  end.

(** [SELECT DISTINCT gmail_id FROM emails WHERE gmail_id IS NOT NULL] *)
Definition existing_gmail_ids (d : db) : gset string :=
  list_to_set (List.map e_gmail_id (emails d)).

(** The [for msg in messages] loop of [fetch_email_batch]. *)
Fixpoint batch_loop (mb : mailbox) (now : string) (existing_ids : gset string)
    (messages : list string) (st : ingest_state) (emails : list email_dict)
    (skipped_count : nat) : ingest_state * list email_dict * nat :=
  match messages with
  | [] => (st, emails, skipped_count)
  | gmail_id :: rest =>
      if decide (gmail_id ∈ existing_ids)
      then batch_loop mb now existing_ids rest st emails (S skipped_count)
      else
        let '(st', email_data) := _process_email mb now st gmail_id in
        match email_data with
        | Some e => batch_loop mb now existing_ids rest st' (emails ++ [e]) skipped_count
        | None => batch_loop mb now existing_ids rest st' emails skipped_count
        end
  end.

Definition fetch_email_batch (mb : mailbox) (now : string) (st : ingest_state)
    (page_token : option string) (batch_size : Z) : ingest_state * batch_result :=
  match list_messages mb (usable_token page_token) batch_size with
  | ListRaises =>
      (st, {| b_emails := []; b_next_page_token := None; b_skipped_count := 0 |})
  | Listed [] next_page_token =>
      (st, {| b_emails := []; b_next_page_token := next_page_token;
              b_skipped_count := 0 |})
  | Listed messages next_page_token =>
      let existing_ids := existing_gmail_ids (st_db st) in
      let '(st', emails, skipped) :=
        batch_loop mb now existing_ids messages st [] 0 in
      (st', {| b_emails := emails; b_next_page_token := next_page_token;
               b_skipped_count := skipped |})
  end.

(** [str(n)] for an [int]. *)
Definition str_of_int (n : Z) : string := NilZero.string_of_int (Z.to_int n).

(** [not next_token]: absent or empty. *)
Definition no_token (t : option string) : bool :=
  match t with
  | Some s => bool_decide (s = "")
  | None => true
  end.

(** One iteration of the [while True] loop of [fetch_all_emails], up to
    the stopping test: the page fetch followed by the two checkpoint
    writes.  [clock] is the value of [int(time.time())] at that point. *)
Definition sync_page (mb : mailbox) (now : string) (clock : Z) (st : ingest_state)
    (page_token : option string) (batch_size : Z) : ingest_state * batch_result :=
  let '(st1, res) := fetch_email_batch mb now st page_token batch_size in
  let d2 := update_sync_metadata (st_db st1) "last_page_token"
              (default "" (b_next_page_token res)) in
  let d3 := update_sync_metadata d2 "last_sync_time" (str_of_int clock) in
  ({| st_db := d3; st_fetched := st_fetched st1 |}, res).

(** The loop of [fetch_all_emails]; [fuel] bounds the number of pages,
    [clock n] is the time read during batch [n].  The result carries the
    number of emails processed and the number of batches run. *)
Fixpoint sync_loop (fuel : nat) (mb : mailbox) (now : string) (clock : nat -> Z)
    (batch_size : Z) (max_emails : option Z) (st : ingest_state)
    (page_token : option string) (total_processed : Z) (batch_count : nat)
    : option (ingest_state * Z * nat) :=
  match fuel with
  | O => None
  | S fuel' =>
      let batch_count := S batch_count in
      let '(st', res) := sync_page mb now (clock batch_count) st page_token batch_size in
      let current_batch_size := Z.of_nat (length (b_emails res)) in
      let total_processed := total_processed + current_batch_size in
      if (no_token (b_next_page_token res) || (current_batch_size =? 0))%bool
      then Some (st', total_processed, batch_count)
      else
        match max_emails with
        | Some m =>
            if (negb (m =? 0) && (m <=? total_processed))%bool
            then Some (st', total_processed, batch_count)
            else sync_loop fuel' mb now clock batch_size max_emails st'
                   (b_next_page_token res) total_processed batch_count
        | None =>
            sync_loop fuel' mb now clock batch_size max_emails st'
              (b_next_page_token res) total_processed batch_count
        end
  end.

Definition fetch_all_emails (fuel : nat) (mb : mailbox) (now : string) (clock : nat -> Z)
    (batch_size : Z) (max_emails : option Z) (st : ingest_state)
    : option (ingest_state * Z * nat) :=
  let page_token := get_sync_metadata (st_db st) "last_page_token" in
  let page_token :=
    match page_token with
    | Some t => if (negb (bool_decide (t = "")) && bool_decide (PyStr.strip t = ""))%bool
                then None else Some t
    | None => None
    end in
  sync_loop fuel mb now clock batch_size max_emails st page_token 0 0.

(** ** Analysis producer ([ai_analyzer.AIEmailAnalyzer]) *)

(** The [EmailAnalysis] dataclass. *)
Record EmailAnalysis := {
  email_id : Z;
  gmail_id : string;
  summary : string;
  priority_score : Z;
  priority_reason : string;
  sentiment : string;
  draft_reply : string;
  action_required : bool;
  suggested_actions : json;
  key_topics : json;
  analysis_timestamp : string;
  processing_time_ms : Z
}.

(** The dict built by [_validate_analysis_results] and
    [_get_fallback_analysis]. *)
Record analysis_results := {
  v_summary : string;
  v_priority_score : Z;
  v_priority_reason : string;
  v_sentiment : string;
  v_action_required : bool;
  v_suggested_actions : json;
  v_key_topics : json;
  v_draft_reply : string
}.

(** Outcome of [self.llm.invoke(messages)]: it raises (transport error,
    timeout, ...) or yields a response whose [content] is a text. *)
Inductive llm_result :=
  | LlmRaises
  | LlmContent (content : string).

(** [bool(x)] *)
Definition py_bool (x : json) : bool :=
  match x with
  | JNull => false
  | JBool b => b
  | JInt z => negb (z =? 0)
  | JFloat n _ => negb (n =? 0)
  | JStr s => negb (bool_decide (s = ""))
  | JList l => match l with [] => false | _ => true end
  | JDict kv => match kv with [] => false | _ => true end
  end.

(** [x[:n]]: defined on lists and strings, a [TypeError] otherwise. *)
Definition py_slice (n : nat) (x : json) : option json :=
  match x with
  | JList l => Some (JList (firstn n l))
  | JStr s => Some (JStr (PyStr.take n s))
  | _ => None
  end.

(** [len(x)] *)
Definition py_len (x : json) : nat :=
  match x with
  | JList l => length l
  | JStr s => PyStr.len s
  | JDict kv => length kv
  | _ => 0%nat
  end.

Definition valid_sentiments : list string :=
  ["positive"; "negative"; "neutral"; "urgent"].

Definition nl : string := String (ascii_of_nat 10) EmptyString.

Definition _get_fallback_analysis : analysis_results :=
  {| v_summary := "AI analysis temporarily unavailable";
     v_priority_score := 3;
     v_priority_reason := "Default priority - analysis failed";
     v_sentiment := "neutral";
     v_action_required := true;
     v_suggested_actions := JList [JStr "Review email manually"];
     v_key_topics := JList [JStr "Unknown"];
     v_draft_reply := "AI draft unavailable - please compose manually" |}.

Section Analyzer.

(** Library functions the producer relies on:
    - [py_repr]: [str(x)] for a value that is not a string;
    - [py_int_of_str]: [int(s)] for a string ([None]: [ValueError]);
    - [json_loads]: [json.loads] ([None]: [JSONDecodeError]);
    - [_clean_html_content]: the BeautifulSoup text extraction. *)
Variable py_repr : json -> string.
Variable py_int_of_str : string -> option Z.
Variable json_loads : string -> option json.
Variable _clean_html_content : string -> string.

(** The model collaborator: the outcome of the [n]-th invocation (counted
    from 0) on the prompt built around the given email text. *)
Variable llm : nat -> string -> llm_result.

(** [str(x)] *)
Definition py_str (x : json) : string :=
  match x with
  | JStr s => s
  | _ => py_repr x
  end.

(** [int(x)]: [None] stands for the [TypeError] or [ValueError]. *)
Definition py_int (x : json) : option Z :=
  match x with
  | JInt z => Some z
  | JBool b => Some (if b then 1 else 0)
  | JFloat n d => Some (Z.quot n (Z.pos d))
  | JStr s => py_int_of_str s
  | _ => None
  end.

(** [results.get(key, default)] *)
Definition get (kv : list (string * json)) (key : string) (dflt : json) : json :=
  default dflt (dict_get key kv).

(** [_validate_analysis_results]; [None] when building the dict raises. *)
Definition _validate_analysis_results (results : json) : option analysis_results :=
  match results with
  | JDict kv =>
      match py_int (get kv "priority_score" (JInt 3)),
            get kv "sentiment" (JStr "neutral"),
            py_slice 5 (get kv "suggested_actions" (JList [])),
            py_slice 10 (get kv "key_topics" (JList [])) with
      | Some p, JStr s, Some actions, Some topics =>
          let sent := PyStr.lower s in
          Some {| v_summary :=
                    PyStr.take 500 (py_str (get kv "summary" (JStr "Analysis not available")));
                  v_priority_score := Z.max 1 (Z.min 5 p);
                  v_priority_reason :=
                    PyStr.take 200 (py_str (get kv "priority_reason" (JStr "Standard priority")));
                  v_sentiment :=
                    if bool_decide (sent ∈ valid_sentiments) then sent else "neutral";
                  v_action_required := py_bool (get kv "action_required" (JBool false));
                  v_suggested_actions := actions;
                  v_key_topics := topics;
                  v_draft_reply :=
                    PyStr.take 1000 (py_str (get kv "draft_reply" (JStr "No reply needed"))) |}
      | _, _, _, _ => None
      end
  | _ => None
  end.

(** The text handed to [json.loads]. *)
Definition response_text (content : string) : string :=
  let response_text := PyStr.strip content in
  if PyStr.startswith "```json" response_text
  then PyStr.strip (PyStr.remove "```" (PyStr.remove "```json" response_text))
  else response_text.

(** The [try] block of [_run_ai_analysis] on the outcome of the model
    call, with both [except] branches. *)
Definition parse_response (r : llm_result) : analysis_results :=
  match r with
  | LlmRaises => _get_fallback_analysis
  | LlmContent content =>
      match json_loads (response_text content) with
      | None => _get_fallback_analysis
      | Some results =>
          match _validate_analysis_results results with
          | Some validated => validated
          | None => _get_fallback_analysis
          end
      end
  end.

(** The state of the producer: the store and the number of model
    invocations made so far. *)
Record analyzer_state := {
  an_db : db;
  an_llm_calls : nat
}.

Definition _run_ai_analysis (st : analyzer_state) (email_content : string)
    : analyzer_state * analysis_results :=
  let r := llm (an_llm_calls st) email_content in
  ({| an_db := an_db st; an_llm_calls := S (an_llm_calls st) |}, parse_response r).

Definition _prepare_email_content (email_data : email_row) : string :=
  let body := e_body email_data in
  let snippet := e_snippet email_data in
  let clean_body := if decide (body = "") then "" else _clean_html_content body in
  let clean_snippet := if decide (snippet = "") then "" else _clean_html_content snippet in
  let content := if decide (clean_body = "") then clean_snippet else clean_body in
  nl ++ "Email Metadata:" ++ nl
     ++ "- From: " ++ e_sender email_data ++ nl
     ++ "- Subject: " ++ e_subject email_data ++ nl
     ++ "- Date: " ++ e_date email_data ++ nl
     ++ "- Category: " ++ e_category email_data ++ nl ++ nl
     ++ "Email Content:" ++ nl
     ++ PyStr.take 2000 content ++ "  # Limit content to avoid token limits" ++ nl.

Definition has_email_id (id : Z) (r : analysis_row) : bool :=
  bool_decide (r_email_id r = id).

(** [SELECT 1 FROM email_analysis WHERE email_id = ?] *)
Definition _is_already_analyzed (d : db) (id : Z) : bool :=
  match List.find (has_email_id id) (email_analysis d) with
  | Some _ => true
  | None => false
  end.

Definition _get_existing_analysis (d : db) (id : Z) : option EmailAnalysis :=
  match List.find (has_email_id id) (email_analysis d) with
  | None => None
  | Some row =>
      Some {| email_id := r_email_id row;
              gmail_id := r_gmail_id row;
              summary := r_summary row;
              priority_score := r_priority_score row;
              priority_reason := r_priority_reason row;
              sentiment := r_sentiment row;
              draft_reply := r_draft_reply row;
              action_required := r_action_required row;
              suggested_actions := r_suggested_actions row;
              key_topics := r_key_topics row;
              analysis_timestamp := r_analysis_timestamp row;
              processing_time_ms := r_processing_time_ms row |}
  end.

(** [INSERT OR REPLACE INTO email_analysis]: a row with the same
    [email_id] is deleted first.  The foreign key makes the statement
    fail when the message row is gone; the [except] branch then leaves
    the table as it was. *)
Definition _store_analysis (d : db) (a : EmailAnalysis) : db :=
  if email_exists d (email_id a) then
    let id := email_analysis_seq d + 1 in
    set_email_analysis d
      (List.filter (fun r => negb (has_email_id (email_id a) r)) (email_analysis d) ++
         [{| r_id := id;
             r_email_id := email_id a;
             r_gmail_id := gmail_id a;
             r_summary := summary a;
             r_priority_score := priority_score a;
             r_priority_reason := priority_reason a;
             r_sentiment := sentiment a;
             r_draft_reply := draft_reply a;
             r_action_required := action_required a;
             r_suggested_actions := suggested_actions a;
             r_key_topics := key_topics a;
             r_analysis_timestamp := analysis_timestamp a;
             r_processing_time_ms := processing_time_ms a |}])
      id
  else d.

(** [UPDATE emails SET ai_analyzed = TRUE WHERE id = ?] *)
Definition _mark_email_analyzed (d : db) (id : Z) : db :=
  set_emails d
    (List.map (fun r =>
       if bool_decide (e_id r = id) then
         {| e_id := e_id r; e_gmail_id := e_gmail_id r; e_thread_id := e_thread_id r;
            e_history_id := e_history_id r; e_sender := e_sender r;
            e_to_recipients := e_to_recipients r; e_subject := e_subject r;
            e_date := e_date r; e_snippet := e_snippet r; e_body := e_body r;
            e_labels := e_labels r; e_category := e_category r;
            e_created_at := e_created_at r; e_updated_at := e_updated_at r;
            e_is_read := e_is_read r; e_ai_analyzed := true |}
       else r) (emails d))
    (emails_seq d).

(** [analyze_email] on a message row; [timestamp] and [elapsed_ms] are
    the clock readings [datetime.now().isoformat()] and the elapsed
    milliseconds. *)
Definition analyze_email (st : analyzer_state) (timestamp : string) (elapsed_ms : Z)
    (email_data : email_row) : analyzer_state * option EmailAnalysis :=
  let id := e_id email_data in
  if _is_already_analyzed (an_db st) id then
    (st, _get_existing_analysis (an_db st) id)
  else
    let email_content := _prepare_email_content email_data in
    let '(st1, analysis_results) := _run_ai_analysis st email_content in
    let analysis :=
      {| email_id := id;
         gmail_id := e_gmail_id email_data;
         summary := v_summary analysis_results;
         priority_score := v_priority_score analysis_results;
         priority_reason := v_priority_reason analysis_results;
         sentiment := v_sentiment analysis_results;
         draft_reply := v_draft_reply analysis_results;
         action_required := v_action_required analysis_results;
         suggested_actions := v_suggested_actions analysis_results;
         key_topics := v_key_topics analysis_results;
         analysis_timestamp := timestamp;
         processing_time_ms := elapsed_ms |} in
    let d1 := _store_analysis (an_db st1) analysis in
    let d2 := _mark_email_analyzed d1 id in
    ({| an_db := d2; an_llm_calls := an_llm_calls st1 |}, Some analysis).

(** The analysis built by [analyze_email] from a result dict. *)
Definition analysis_of (email_data : email_row) (res : analysis_results)
    (timestamp : string) (elapsed_ms : Z) : EmailAnalysis :=
  {| email_id := e_id email_data;
     gmail_id := e_gmail_id email_data;
     summary := v_summary res;
     priority_score := v_priority_score res;
     priority_reason := v_priority_reason res;
     sentiment := v_sentiment res;
     draft_reply := v_draft_reply res;
     action_required := v_action_required res;
     suggested_actions := v_suggested_actions res;
     key_topics := v_key_topics res;
     analysis_timestamp := timestamp;
     processing_time_ms := elapsed_ms |}.

(** A model outcome that yields no validated result: the call raised,
    the text is not JSON, or the parsed value fails validation. *)
Definition model_failed (r : llm_result) : Prop :=
  r = LlmRaises
  ∨ ∃ content, r = LlmContent content
      ∧ (json_loads (response_text content) = None
         ∨ ∃ results, json_loads (response_text content) = Some results
                      ∧ _validate_analysis_results results = None).

End Analyzer.

(** ** Sample data *)

(** Sample data used to exercise the page fetch. *)
Module Sample.

Definition row1 : email_row :=
  {| e_id := 1; e_gmail_id := "m1"; e_thread_id := Some "t1";
     e_history_id := None; e_sender := "ann@example.org";
     e_to_recipients := "bob@example.org"; e_subject := "Hello";
     e_date := "Mon, 1 Jan 2024"; e_snippet := "Hi"; e_body := "Hi Bob";
     e_labels := "INBOX"; e_category := "Inbox";
     e_created_at := "t0"; e_updated_at := "t0";
     e_is_read := 1; e_ai_analyzed := false |}.

Definition db1 : db := set_emails empty_db [row1] 1.

Definition msg2 : full_message :=
  {| m_subject := Some "Offer"; m_from := Some "shop@example.org";
     m_to := Some "bob@example.org"; m_date := Some "Tue, 2 Jan 2024";
     m_thread_id := Some "t2"; m_history_id := Some "h2";
     m_snippet := "Big  sale"; m_label_ids := ["CATEGORY_PROMOTIONS"; "UNREAD"];
     m_body := "Big   sale today"; m_attachments := [] |}.

(** A mailbox whose only page lists [m1]. *)
Definition listed_m1 : mailbox :=
  {| list_messages := λ _ _, Listed ["m1"] (Some "p2");
     get_message := λ _, Some msg2 |}.

(** A mailbox whose listing call fails. *)
Definition unreachable : mailbox :=
  {| list_messages := λ _ _, ListRaises;
     get_message := λ _, None |}.

(** A mailbox with one page holding the new message [m2]. *)
Definition one_new : mailbox :=
  {| list_messages := λ _ _, Listed ["m2"] None;
     get_message := λ _, Some msg2 |}.

Definition st1 : ingest_state := {| st_db := db1; st_fetched := [] |}.

End Sample.

Module SampleAttachment.

Definition pdf : list byte := ["%"; "P"; "D"; "F"]%byte.

Definition stored : attachment_row :=
  {| a_id := 1; a_email_id := 1; a_filename := "report.pdf"; a_size := 4;
     a_content_preview := Some ""; a_content := Some pdf; a_created_at := "t0" |}.

Definition db2 : db := set_attachments Sample.db1 [stored] 1.

End SampleAttachment.

(** Stand-ins for the library functions and the model, used to run the
    producer on concrete inputs. *)
Module SampleModel.

Definition repr (x : json) : string :=
  match x with
  | JNull => "None"
  | JBool true => "True"
  | JBool false => "False"
  | _ => "<value>"
  end.

Definition int_of_str (s : string) : option Z :=
  if decide (s = "9") then Some 9 else None.

(** Parses the one well-formed response text used below. *)
Definition loads (s : string) : option json :=
  if decide (s = "{}") then Some (JDict []) else None.

Definition clean_html (s : string) : string := s.

(** A model that is down. *)
Definition llm_down (n : nat) (prompt : string) : llm_result := LlmRaises.

(** A model that answers with prose instead of JSON. *)
Definition llm_prose (n : nat) (prompt : string) : llm_result :=
  LlmContent "Sorry, I cannot help with that.".



Definition st0 : analyzer_state := {| an_db := Sample.db1; an_llm_calls := 0 |}.

End SampleModel.

(** Calling [analyze_email] once per clock reading on the same message. *)
Fixpoint analyze_repeat (py_repr : json → string) (py_int_of_str : string → option Z)
    (json_loads : string → option json) (clean : string → string)
    (llm : nat → string → llm_result) (st : analyzer_state)
    (readings : list (string * Z)) (email_data : email_row)
    : analyzer_state * list (option EmailAnalysis) :=
  match readings with
  | [] => (st, [])
  | (timestamp, elapsed_ms) :: rest =>
      let '(st1, r) := analyze_email py_repr py_int_of_str json_loads clean llm
                         st timestamp elapsed_ms email_data in
      let '(st2, rs) := analyze_repeat py_repr py_int_of_str json_loads clean llm
                          st1 rest email_data in
      (st2, r :: rs)
  end.

(** What a conflicting insert may change in a stored row: never its id
    or key; a content blob stays a blob, and stays the same blob when the
    new attempt carries none. *)
Definition attachment_kept (content : option (list byte)) (r r' : attachment_row) : Prop :=
  a_id r' = a_id r
  ∧ attachment_key r' = attachment_key r
  ∧ (a_content r ≠ None → a_content r' ≠ None)
  ∧ (content = None → a_content r' = a_content r).

(** ** More of the store ([sqlite_manager.SQLiteManager]) *)

(** [x or "0"] on the result of [get_sync_metadata]. *)
Definition or_zero (x : option string) : string :=
  match x with
  | Some s => if decide (s = "") then "0" else s
  | None => "0"
  end.

(** The dict returned by [get_fetch_metadata]. *)
Record fetch_metadata := {
  last_fetch_token : option string;
  total_emails_fetched : Z;
  last_fetch_time : option string
}.

Section Counters.

(** [int(s)] on a string; [None] stands for the [ValueError]. *)
Variable py_int_of_str : string → option Z.

Definition get_fetch_metadata (d : db) : option fetch_metadata :=
  match py_int_of_str (or_zero (get_sync_metadata d "total_emails_fetched")) with
  | Some n =>
      Some {| last_fetch_token := get_sync_metadata d "last_page_token";
              total_emails_fetched := n;
              last_fetch_time := get_sync_metadata d "last_sync_time" |}
  | None => None
  end.

(** [update_fetch_metadata]; the flag is [false] when [int] raised, which
    happens after the cursor was written and committed. *)
Definition update_fetch_metadata (d : db) (page_token : option string)
    (emails_fetched : Z) : db * bool :=
  let d1 := match page_token with
            | Some t => update_sync_metadata d "last_page_token" t
            | None => d
            end in
  match py_int_of_str (or_zero (get_sync_metadata d1 "total_emails_fetched")) with
  | Some current =>
      (update_sync_metadata d1 "total_emails_fetched"
         (str_of_int (current + Z.max 0 emails_fetched)), true)
  | None => (d1, false)
  end.

End Counters.

(** The decimal reading of a signed integer text, one instance of [int]. *)
Definition int_of_decimal (s : string) : option Z :=
  Z.of_int <$> NilZero.int_of_string s.

(** [UPDATE emails SET is_read = ?, updated_at = CURRENT_TIMESTAMP WHERE id = ?] *)
Definition mark_email_as_read (d : db) (now : string) (id : Z) (read : bool) : db :=
  set_emails d
    (List.map (λ r,
       if bool_decide (e_id r = id) then
         {| e_id := e_id r; e_gmail_id := e_gmail_id r; e_thread_id := e_thread_id r;
            e_history_id := e_history_id r; e_sender := e_sender r;
            e_to_recipients := e_to_recipients r; e_subject := e_subject r;
            e_date := e_date r; e_snippet := e_snippet r; e_body := e_body r;
            e_labels := e_labels r; e_category := e_category r;
            e_created_at := e_created_at r; e_updated_at := now;
            e_is_read := if read then 1 else 0; e_ai_analyzed := e_ai_analyzed r |}
       else r) (emails d))
    (emails_seq d).

(** [UPDATE emails SET labels = ?, category = ?, updated_at = ... WHERE gmail_id = ?] *)
Definition update_email_labels_and_category (d : db) (now : string)
    (gmail_id labels_csv category : string) : db :=
  set_emails d
    (List.map (λ r,
       if has_gmail_id gmail_id r then
         {| e_id := e_id r; e_gmail_id := e_gmail_id r; e_thread_id := e_thread_id r;
            e_history_id := e_history_id r; e_sender := e_sender r;
            e_to_recipients := e_to_recipients r; e_subject := e_subject r;
            e_date := e_date r; e_snippet := e_snippet r; e_body := e_body r;
            e_labels := str_or labels_csv ""; e_category := str_or category "Other";
            e_created_at := e_created_at r; e_updated_at := now;
            e_is_read := e_is_read r; e_ai_analyzed := e_ai_analyzed r |}
       else r) (emails d))
    (emails_seq d).

(** [DELETE FROM emails WHERE id = ?]; with foreign keys on, the rows of
    [attachments] and [email_analysis] that reference the message go with
    it ([ON DELETE CASCADE]).  The AUTOINCREMENT counters stay. *)
Definition delete_email (d : db) (id : Z) : db :=
  {| emails := List.filter (λ r, negb (bool_decide (e_id r = id))) (emails d);
     emails_seq := emails_seq d;
     attachments :=
       List.filter (λ r, negb (bool_decide (a_email_id r = id))) (attachments d);
     attachments_seq := attachments_seq d;
     sync_metadata := sync_metadata d;
     email_analysis :=
       List.filter (λ r, negb (bool_decide (r_email_id r = id))) (email_analysis d);
     email_analysis_seq := email_analysis_seq d |}.

(** A truthy [Optional[str]] argument. *)
Definition truthy (x : option string) : option string :=
  match x with
  | Some s => if decide (s = "") then None else Some s
  | None => None
  end.

(** [get_unread_count] *)
Definition get_unread_count (d : db) (category : option string) : nat :=
  match truthy category with
  | Some c =>
      length (List.filter (λ r, (e_is_read r =? 0) && bool_decide (e_category r = c))
                (emails d))
  | None => length (List.filter (λ r, e_is_read r =? 0) (emails d))
  end.

(** *** Filters and pagination *)

(** The SQL [LIKE] operator: [%] matches any run of characters, [_] any
    one character, a letter matches in either case. *)
Fixpoint sql_like (pattern s : string) : bool :=
  match pattern with
  | EmptyString => match s with EmptyString => true | _ => false end
  | String p pattern' =>
      if Ascii.eqb p "%" then
        (fix any (s : string) : bool :=
           sql_like pattern' s
           || match s with
              | EmptyString => false
              | String _ s' => any s'
              end) s
      else
        match s with
        | EmptyString => false
        | String c s' =>
            (Ascii.eqb p "_" || Ascii.eqb (PyStr.lower_ascii p) (PyStr.lower_ascii c))
            && sql_like pattern' s'
        end
  end.

(** [f"%{x}%"] *)
Definition contains_pattern (x : string) : string := "%" ++ x ++ "%".

(** The filter arguments shared by [get_total_email_count] and
    [get_emails_paginated]. *)
Record email_filter := {
  f_category : option string;
  f_sender_filter : option string;
  f_subject_filter : option string;
  f_include_unread_only : bool
}.

Definition no_filter : email_filter :=
  {| f_category := None; f_sender_filter := None; f_subject_filter := None;
     f_include_unread_only := false |}.

(** The conjunction built from the optional conditions; [category] is
    the category condition, already decided by the caller. *)
Definition where_clause (category : option string) (f : email_filter)
    (r : email_row) : bool :=
  match category with
  | Some c => bool_decide (e_category r = c)
  | None => true
  end
  && match truthy (f_sender_filter f) with
     | Some x => sql_like (contains_pattern x) (e_sender r)
     | None => true
     end
  && match truthy (f_subject_filter f) with
     | Some x => sql_like (contains_pattern x) (e_subject r)
     | None => true
     end
  && (if f_include_unread_only f then e_is_read r =? 0 else true).

(** [category and category != "All"] *)
Definition category_not_all (category : option string) : option string :=
  match truthy category with
  | Some c => if decide (c = "All") then None else Some c
  | None => None
  end.

Definition get_total_email_count (d : db) (f : email_filter) : nat :=
  length (List.filter (where_clause (category_not_all (f_category f)) f) (emails d)).

(** [ORDER BY date DESC]: the date column is text and compares byte by
    byte; rows with equal dates keep their table order. *)
Fixpoint insert_date_desc (r : email_row) (sorted : list email_row) : list email_row :=
  match sorted with
  | [] => [r]
  | x :: rest =>
      if String.ltb (e_date r) (e_date x)
      then x :: insert_date_desc r rest
      else r :: sorted
  end.

Definition order_by_date_desc (rows : list email_row) : list email_row :=
  List.fold_right insert_date_desc [] rows.

(** [LIMIT n]: a negative bound is no bound. *)
Definition sql_limit {A} (n : Z) (rows : list A) : list A :=
  if n <? 0 then rows else firstn (Z.to_nat n) rows.

(** [OFFSET n]: a negative offset is no offset. *)
Definition sql_offset {A} (n : Z) (rows : list A) : list A :=
  skipn (Z.to_nat n) rows.

(** [get_emails_paginated]: the rows of the page and the total count. *)
Definition get_emails_paginated (d : db) (page page_size : Z) (f : email_filter)
    : list email_row * nat :=
  let matching := List.filter (where_clause (truthy (f_category f)) f) (emails d) in
  let total := length matching in
  let offset := Z.max 0 ((page - 1) * page_size) in
  (sql_limit page_size (sql_offset offset (order_by_date_desc matching)), total).

(** [search_emails] *)
Definition search_emails (d : db) (query : string) (limit : Z) : list email_row :=
  let like := contains_pattern query in
  sql_limit limit
    (order_by_date_desc
       (List.filter (λ r, sql_like like (e_subject r) || sql_like like (e_sender r)
                          || sql_like like (e_to_recipients r) || sql_like like (e_body r))
          (emails d))).

(** *** Reply detection *)

(** [instr(s, sub) != 0]: [sub] occurs in [s]. *)
Fixpoint occurs (sub s : string) : bool :=
  PyStr.startswith sub s
  || match s with
     | EmptyString => false
     | String _ s' => occurs sub s'
     end.

Definition has_incoming_after (d : db) (thread_id after_date : string) : bool :=
  if decide (thread_id = "") then false
  else existsb (λ r, bool_decide (e_thread_id r = Some thread_id)
                     && String.ltb after_date (e_date r)
                     && negb (occurs "SENT" (e_labels r)))
         (emails d).

Definition has_reply (d : db) (thread_id : option string) (sent_date : string) : bool :=
  has_incoming_after d (default "" thread_id) sent_date.

(** ** More of the ingestion pipeline ([fetch_emails.EmailFetcher]) *)

(** One part of a message payload: its MIME type, the [data] and
    [attachmentId] of its body, its filename and, when the key is
    present, its nested parts. *)
#[warnings="-register-all"]
Inductive part : Type :=
  | Part (mimeType : string) (data : option string) (attachmentId : option string)
         (filename : string) (parts : option (list part)).

(** Outcome of [attachments().get(...).execute()]: the call raises, or
    answers with a dict that may hold [data]. *)
Inductive attachment_result :=
  | AttRaises
  | AttResponse (data : option string).

(** The dicts collected by [_extract_content_and_attachments]. *)
Record attachment_dict := {
  ad_filename : string;
  ad_size : Z;
  ad_content : option (list byte);
  ad_content_preview : string;
  ad_mime_type : string
}.

(** What the walk over the parts accumulates: the decoded text parts,
    the attachments, and the number of attachment requests sent so far. *)
Record extract_state := {
  x_body_parts : list string;
  x_attachments : list attachment_dict;
  x_calls : nat
}.

(** [s.endswith(suffix)] *)
Definition endswith (suffix s : string) : bool :=
  let n := PyStr.len s in
  let k := PyStr.len suffix in
  (k <=? n)%nat && bool_decide (PyStr.drop (n - k) s = suffix).

Definition preview_suffixes : list string := [".txt"; ".csv"; ".json"; ".xml"; ".log"].

Section Extraction.

(** Library functions: [base64.urlsafe_b64decode] ([None] when it
    raises) and [bytes.decode("utf-8", errors="ignore")]. *)
Variable urlsafe_b64decode : string → option (list byte).
Variable utf8_decode : list byte → string.

(** The provider: the outcome of the [n]-th attachment request (counted
    from 0) for a message id and an attachment id. *)
Variable get_attachment : nat → string → string → attachment_result.

(** The retry loop: up to [retries] requests; the last failure is
    re-raised ([None]).  Returns the number of requests made. *)
Fixpoint fetch_attachment (retries : nat) (calls : nat) (msg_id attachment_id : string)
    : nat * option (option string) :=
  match retries with
  | O => (calls, None)
  | S retries' =>
      match get_attachment calls msg_id attachment_id with
      | AttResponse data => (S calls, Some data)
      | AttRaises =>
          match retries' with
          | O => (S calls, None)
          | S _ => fetch_attachment retries' (S calls) msg_id attachment_id
          end
      end
  end.

(** The attachment branch of [process_part]. *)
Definition fetch_attachment_dict (calls : nat) (msg_id attachment_id filename mime_type : string)
    : nat * attachment_dict :=
  let failed := {| ad_filename := filename; ad_size := 0; ad_content := None;
                   ad_content_preview := "Failed to fetch attachment content";
                   ad_mime_type := mime_type |} in
  let '(calls', r) := fetch_attachment 3 calls msg_id attachment_id in
  match r with
  | Some (Some data) =>
      match urlsafe_b64decode (data ++ "===") with
      | Some raw_data =>
          let preview :=
            if existsb (λ suffix, endswith suffix (PyStr.lower filename)) preview_suffixes
            then utf8_decode (firstn 1000 raw_data) else "" in
          (calls', {| ad_filename := filename; ad_size := Z.of_nat (length raw_data);
                      ad_content := Some raw_data; ad_content_preview := preview;
                      ad_mime_type := mime_type |})
      | None => (calls', failed)
      end
  | _ => (calls', failed)
  end.

(** [process_part], with the loop over the nested parts. *)
Fixpoint process_part (msg_id : string) (p : part) (st : extract_state) : extract_state :=
  match p with
  | Part mime_type data attachment_id filename parts =>
      let body_parts :=
        if bool_decide (mime_type ∈ ["text/plain"; "text/html"]) then
          match truthy data with
          | Some data =>
              match urlsafe_b64decode (data ++ "===") with
              | Some raw => (x_body_parts st ++ [utf8_decode raw])%list
              | None => x_body_parts st
              end
          | None => x_body_parts st
          end
        else x_body_parts st in
      let '(calls, attachments) :=
        match truthy attachment_id with
        | Some attachment_id =>
            if decide (filename = "") then (x_calls st, x_attachments st)
            else
              let '(calls, att) :=
                fetch_attachment_dict (x_calls st) msg_id attachment_id filename mime_type in
              (calls, (x_attachments st ++ [att])%list)
        | None => (x_calls st, x_attachments st)
        end in
      let st1 := {| x_body_parts := body_parts; x_attachments := attachments;
                    x_calls := calls |} in
      match parts with
      | Some subparts =>
          (fix walk (l : list part) (st : extract_state) : extract_state :=
             match l with
             | [] => st
             | q :: rest => walk rest (process_part msg_id q st)
             end) subparts st1
      | None => st1
      end
  end.

(** The state after the own content of a part, before its nested parts. *)
Definition own_state (msg_id mime : string) (data aid : option string) (fn : string)
    (st : extract_state) : extract_state :=
  let body_parts :=
    if bool_decide (mime ∈ ["text/plain"; "text/html"]) then
      match truthy data with
      | Some data =>
          match urlsafe_b64decode (data ++ "===") with
          | Some raw => (x_body_parts st ++ [utf8_decode raw])%list
          | None => x_body_parts st
          end
      | None => x_body_parts st
      end
    else x_body_parts st in
  let '(calls, attachments) :=
    match truthy aid with
    | Some attachment_id =>
        if decide (fn = "") then (x_calls st, x_attachments st)
        else
          let '(calls, att) := fetch_attachment_dict (x_calls st) msg_id attachment_id fn mime in
          (calls, (x_attachments st ++ [att])%list)
    | None => (x_calls st, x_attachments st)
    end in
  {| x_body_parts := body_parts; x_attachments := attachments; x_calls := calls |}.

(** Processing a list of parts in order. *)
Definition process_parts (msg_id : string) (l : list part) (st : extract_state)
    : extract_state :=
  List.fold_left (λ st q, process_part msg_id q st) l st.

(** [_extract_content_and_attachments]: the joined body, the
    attachments, and the number of attachment requests made. *)
Definition _extract_content_and_attachments (payload : part) (msg_id : string)
    : string * list attachment_dict * nat :=
  let st0 := {| x_body_parts := []; x_attachments := []; x_calls := 0 |} in
  let st :=
    match payload with
    | Part _ _ _ _ (Some parts) => process_parts msg_id parts st0
    | Part _ _ _ _ None => process_part msg_id payload st0
    end in
  (String.concat (nl ++ nl) (x_body_parts st), x_attachments st, x_calls st).

End Extraction.

(** The parts of a payload that carry an attachment: an attachment id
    and a filename, both non-empty. *)
Fixpoint attachment_parts (p : part) : nat :=
  match p with
  | Part _ _ attachment_id filename parts =>
      (match truthy attachment_id with
       | Some _ => if decide (filename = "") then 0 else 1
       | None => 0
       end
       + match parts with
         | Some subparts =>
             (fix count (l : list part) : nat :=
                match l with
                | [] => 0
                | q :: rest => attachment_parts q + count rest
                end) subparts
         | None => 0
         end)%nat
  end.

Definition attachment_parts_list (l : list part) : nat :=
  List.fold_right (λ q n, (attachment_parts q + n)%nat) 0%nat l.

(** The dict returned by [get_sync_status]; the time is kept as the
    epoch seconds handed to [datetime.fromtimestamp]. *)
Record sync_status := {
  ss_last_sync_time : option Z;
  ss_has_more_emails : bool;
  ss_total_emails_fetched : Z;
  ss_emails_in_db : nat
}.

Section SyncStatus.

Variable py_int_of_str : string → option Z.

(** [get_sync_status]; a failing [int] leads to the dict of the [except]
    branch. *)
Definition get_sync_status (d : db) : sync_status :=
  let last_sync := get_sync_metadata d "last_sync_time" in
  let last_token := get_sync_metadata d "last_page_token" in
  let total_fetched := get_sync_metadata d "total_emails_fetched" in
  let failed := {| ss_last_sync_time := None; ss_has_more_emails := false;
                   ss_total_emails_fetched := 0;
                   ss_emails_in_db := get_total_email_count d no_filter |} in
  let last_sync_time :=
    match truthy last_sync with
    | Some s => match py_int_of_str s with
                | Some t => Some (Some t)
                | None => None
                end
    | None => Some None
    end in
  let total :=
    match truthy total_fetched with
    | Some s => py_int_of_str s
    | None => Some 0
    end in
  match last_sync_time, total with
  | Some t, Some n =>
      {| ss_last_sync_time := t;
         ss_has_more_emails :=
           match truthy last_token with
           | Some tk => negb (bool_decide (PyStr.strip tk = ""))
           | None => false
           end;
         ss_total_emails_fetched := n;
         ss_emails_in_db := get_total_email_count d no_filter |}
  | _, _ => failed
  end.

End SyncStatus.

(** ** More of the analysis producer ([ai_analyzer.AIEmailAnalyzer]) *)

(** [SELECT * FROM emails WHERE ai_analyzed IS NOT TRUE ORDER BY date DESC LIMIT ?] *)
Definition _get_unanalyzed_emails (d : db) (limit : Z) : list email_row :=
  sql_limit limit
    (order_by_date_desc (List.filter (λ r, negb (e_ai_analyzed r)) (emails d))).

Section Batch.

Variable py_repr : json → string.
Variable py_int_of_str : string → option Z.
Variable json_loads : string → option json.
Variable _clean_html_content : string → string.
Variable llm : nat → string → llm_result.

(** The loop of [batch_analyze_emails]; [clock i] gives the timestamp
    and the elapsed milliseconds read while item [i] is analysed. *)
Fixpoint batch_analyze_loop (clock : nat → string * Z) (i : nat)
    (unanalyzed_emails : list email_row) (st : analyzer_state)
    (results : list EmailAnalysis) : analyzer_state * list EmailAnalysis :=
  match unanalyzed_emails with
  | [] => (st, results)
  | email :: rest =>
      let '(st', analysis) :=
        analyze_email py_repr py_int_of_str json_loads _clean_html_content llm
          st (clock i).1 (clock i).2 email in
      batch_analyze_loop clock (S i) rest st'
        (match analysis with
         | Some a => (results ++ [a])%list
         | None => results
         end)
  end.

Definition batch_analyze_emails (clock : nat → string * Z) (st : analyzer_state)
    (limit : Z) : analyzer_state * list EmailAnalysis :=
  batch_analyze_loop clock 1 (_get_unanalyzed_emails (an_db st) limit) st [].

End Batch.

(** [ORDER BY a.priority_score DESC, e.date DESC] on joined rows. *)
Definition before_by_priority (x y : email_row * analysis_row) : bool :=
  (r_priority_score y.2 <? r_priority_score x.2)
  || ((r_priority_score y.2 =? r_priority_score x.2)
      && negb (String.ltb (e_date x.1) (e_date y.1))).

Fixpoint insert_by_priority (x : email_row * analysis_row)
    (sorted : list (email_row * analysis_row)) : list (email_row * analysis_row) :=
  match sorted with
  | [] => [x]
  | y :: rest =>
      if before_by_priority x y then x :: sorted
      else y :: insert_by_priority x rest
  end.

(** [emails e JOIN email_analysis a ON e.id = a.email_id] *)
Definition join_analysis (d : db) : list (email_row * analysis_row) :=
  List.flat_map (λ e, List.map (λ a, (e, a))
                        (List.filter (λ a, bool_decide (r_email_id a = e_id e))
                           (email_analysis d)))
    (emails d).

(** [get_high_priority_emails]: the joined rows, most urgent first. *)
Definition get_high_priority_emails (d : db) (limit : Z)
    : list (email_row * analysis_row) :=
  sql_limit limit
    (List.fold_right insert_by_priority []
       (List.filter (λ x, 4 <=? r_priority_score x.2) (join_analysis d))).

(** ** Invariants of the store *)

(** The [emails] table: [gmail_id] and [id] are unique, and no id is
    above the AUTOINCREMENT counter. *)
Definition emails_wf (d : db) : Prop :=
  NoDup (List.map e_gmail_id (emails d))
  ∧ NoDup (List.map e_id (emails d))
  ∧ Forall (λ r, e_id r ≤ emails_seq d) (emails d).

(** Referential integrity: attachments and analyses belong to stored
    messages. *)
Definition refs_ok (d : db) : Prop :=
  Forall (λ a, a_email_id a ∈ List.map e_id (emails d)) (attachments d)
  ∧ Forall (λ r, r_email_id r ∈ List.map e_id (emails d)) (email_analysis d).

(** Whether a row falls under the category argument of
    [get_unread_count]. *)
Definition in_category (category : option string) (r : email_row) : bool :=
  match truthy category with
  | Some c => bool_decide (e_category r = c)
  | None => true
  end.

(** [x] is not dated before [y]: the order of two consecutive rows
    under [ORDER BY date DESC]. *)
Definition date_desc (x y : email_row) : Prop :=
  String.ltb (e_date x) (e_date y) = false.

(** The pages 1 to [n] of [get_emails_paginated], one after the other. *)
Definition pages_upto (d : db) (page_size : Z) (f : email_filter) (n : nat)
    : list email_row :=
  List.concat
    (List.map (λ k, (get_emails_paginated d (Z.of_nat k) page_size f).1) (List.seq 1 n)).

(** The filter with the category condition dropped. *)
Definition without_category (f : email_filter) : email_filter :=
  {| f_category := None; f_sender_filter := f_sender_filter f;
     f_subject_filter := f_subject_filter f;
     f_include_unread_only := f_include_unread_only f |}.



(** The identity of a stored message: its local id and its provider id. *)
Definition email_identity (r : email_row) : Z * string := (e_id r, e_gmail_id r).

(** The listed ids that [fetch_email_batch] fetches: those not in the
    pre-fetched set. *)
Definition to_fetch (ids : gset string) (messages : list string) : list string :=
  List.filter (λ g, negb (bool_decide (g ∈ ids))) messages.

(** The listed ids that end up in the result: fetched, and the provider
    answered. *)
Definition fetched_ok (mb : mailbox) (ids : gset string) (messages : list string)
    : list string :=
  List.filter (λ g, negb (bool_decide (g ∈ ids))
                    && match get_message mb g with Some _ => true | None => false end)
    messages.


(** The two shapes of a collected attachment: fetched and decoded, with
    its size the length of the content; or the placeholder kept when the
    fetch or the decoding failed. *)
Definition attachment_dict_ok (a : attachment_dict) : Prop :=
  ad_filename a ≠ ""
  ∧ ((∃ raw, ad_content a = Some raw ∧ ad_size a = Z.of_nat (length raw))
     ∨ (ad_content a = None ∧ ad_size a = 0
        ∧ ad_content_preview a = "Failed to fetch attachment content")).

(** What a walk adds to the state. *)
Definition walk_ok (n : nat) (st st' : extract_state) : Prop :=
  length (x_attachments st') = (length (x_attachments st) + n)%nat
  ∧ (x_calls st + n <= x_calls st')%nat
  ∧ (x_calls st' <= x_calls st + 3 * n)%nat
  ∧ (Forall attachment_dict_ok (x_attachments st) →
     Forall attachment_dict_ok (x_attachments st')).

(** The attachment-bearing parts that [_extract_content_and_attachments]
    visits: below the payload when it has parts, the payload otherwise. *)
Definition visited_attachment_parts (payload : part) : nat :=
  match payload with
  | Part _ _ _ _ (Some parts) => attachment_parts_list parts
  | Part _ _ _ _ None => attachment_parts payload
  end.

(** ** Invariants of the analysis table *)

(** The bounds a result dict respects. *)
Definition results_ok (r : analysis_results) : Prop :=
  1 ≤ v_priority_score r ≤ 5
  ∧ v_sentiment r ∈ valid_sentiments
  ∧ (py_len (v_suggested_actions r) <= 5)%nat
  ∧ (py_len (v_key_topics r) <= 10)%nat
  ∧ (PyStr.len (v_summary r) <= 500)%nat
  ∧ (PyStr.len (v_priority_reason r) <= 200)%nat
  ∧ (PyStr.len (v_draft_reply r) <= 1000)%nat.

(** The same bounds on a stored row. *)
Definition analysis_row_ok (r : analysis_row) : Prop :=
  1 ≤ r_priority_score r ≤ 5
  ∧ r_sentiment r ∈ valid_sentiments
  ∧ (py_len (r_suggested_actions r) <= 5)%nat
  ∧ (py_len (r_key_topics r) <= 10)%nat
  ∧ (PyStr.len (r_summary r) <= 500)%nat
  ∧ (PyStr.len (r_priority_reason r) <= 200)%nat
  ∧ (PyStr.len (r_draft_reply r) <= 1000)%nat.

(** The [email_analysis] table: one row per message, every row within
    the bounds. *)
Definition analysis_wf (d : db) : Prop :=
  NoDup (List.map r_email_id (email_analysis d))
  ∧ Forall analysis_row_ok (email_analysis d).

(** A row as [_mark_email_analyzed] may leave it: the same, or the same
    with the flag set. *)
Definition same_but_flag (r r' : email_row) : Prop :=
  r' = r
  ∨ r' = {| e_id := e_id r; e_gmail_id := e_gmail_id r; e_thread_id := e_thread_id r;
            e_history_id := e_history_id r; e_sender := e_sender r;
            e_to_recipients := e_to_recipients r; e_subject := e_subject r;
            e_date := e_date r; e_snippet := e_snippet r; e_body := e_body r;
            e_labels := e_labels r; e_category := e_category r;
            e_created_at := e_created_at r; e_updated_at := e_updated_at r;
            e_is_read := e_is_read r; e_ai_analyzed := true |}.

(** The flag agrees with the table: a message without the [ai_analyzed]
    flag has no analysis row. *)
Definition flags_consistent (d : db) : Prop :=
  Forall (λ r, e_ai_analyzed r = false → _is_already_analyzed d (e_id r) = false)
    (emails d).

(** Every stored row of message [id] carries the flag. *)
Definition flagged (d : db) (id : Z) : Prop :=
  Forall (λ r, e_id r = id → e_ai_analyzed r = true) (emails d).

(** * Properties *)

(** ** Python strings *)

Lemma len_take n s : (PyStr.len (PyStr.take n s) <= n)%nat.
Proof.
  unfold PyStr.len. revert s; induction n as [|n IH]; intros [|c s]; simpl; try lia.
  specialize (IH s). lia.
Qed.

(** ** Category classifier *)

Lemma elem_of_label_set (x : string) (l : list string) :
  x ∈ (list_to_set l : gset string) ↔ x ∈ l.
Proof. apply elem_of_list_to_set. Qed.

(** C6: [map_labels_to_category] is a total function of the label set; it
    tests INBOX, SENT, DRAFT, CATEGORY_PROMOTIONS and IMPORTANT in this
    order and answers "Other" when none is present (also for [None] and
    for the empty list).  A list with both INBOX and IMPORTANT gives
    "Inbox", one with only CATEGORY_PROMOTIONS gives "Promotions". *)
Theorem map_labels_to_category_order :
  (∀ labels : option (list string),
     let l := default [] labels in
     map_labels_to_category labels =
       if decide ("INBOX" ∈ l) then "Inbox"
       else if decide ("SENT" ∈ l) then "Sent"
       else if decide ("DRAFT" ∈ l) then "Drafts"
       else if decide ("CATEGORY_PROMOTIONS" ∈ l) then "Promotions"
       else if decide ("IMPORTANT" ∈ l) then "Important"
       else "Other")
  ∧ (∀ labels : option (list string),
       map_labels_to_category labels
         ∈ ["Inbox"; "Sent"; "Drafts"; "Promotions"; "Important"; "Other"])
  ∧ (∀ l : list string,
       "INBOX" ∈ l → "IMPORTANT" ∈ l → map_labels_to_category (Some l) = "Inbox")
  ∧ map_labels_to_category (Some ["CATEGORY_PROMOTIONS"]) = "Promotions"
  ∧ map_labels_to_category (Some []) = "Other"
  ∧ map_labels_to_category None = "Other".
Proof.
  assert (Hord : ∀ labels : option (list string),
     let l := default [] labels in
     map_labels_to_category labels =
       if decide ("INBOX" ∈ l) then "Inbox"
       else if decide ("SENT" ∈ l) then "Sent"
       else if decide ("DRAFT" ∈ l) then "Drafts"
       else if decide ("CATEGORY_PROMOTIONS" ∈ l) then "Promotions"
       else if decide ("IMPORTANT" ∈ l) then "Important"
       else "Other").
  { intros labels l. unfold map_labels_to_category. cbv zeta. fold l.
    repeat match goal with
    | |- context [decide (?x ∈ l)] =>
        destruct (decide (x ∈ l));
        [ rewrite (decide_True (P := x ∈ (list_to_set l : gset string)))
            by (by apply elem_of_label_set)
        | rewrite (decide_False (P := x ∈ (list_to_set l : gset string)))
            by (by rewrite elem_of_label_set) ]
    end; done. }
  split; [exact Hord|].
  split.
  { intros labels. rewrite Hord. simpl. repeat case_decide; set_solver. }
  split.
  { intros l Hin _. rewrite Hord. simpl. by rewrite decide_True. }
  repeat split; rewrite Hord; simpl; repeat case_decide; set_solver.
Qed.

(** ** Page fetch *)

Lemma elem_of_existing_gmail_ids (d : db) (g : string) :
  g ∈ existing_gmail_ids d ↔ g ∈ List.map e_gmail_id (emails d).
Proof. apply elem_of_list_to_set. Qed.

(** When every listed id is in the pre-fetched set, the loop only counts. *)
Lemma batch_loop_all_existing mb now (ids : gset string) messages st emails skipped :
  Forall (λ g, g ∈ ids) messages →
  batch_loop mb now ids messages st emails skipped
  = (st, emails, (skipped + length messages)%nat).
Proof.
  intros Hall. revert skipped.
  induction Hall as [|g rest Hg _ IH]; intros skipped; simpl.
  - by rewrite Nat.add_0_r.
  - rewrite decide_True by done. rewrite IH. f_equal. lia.
Qed.

(** C2: when the page lists only message ids that are already stored,
    [fetch_email_batch] returns no message, requests no message content
    from the provider, counts every listed id as skipped and leaves the
    store as it was. *)
Theorem fetch_email_batch_idempotent mb now st page_token batch_size messages next :
  list_messages mb (usable_token page_token) batch_size = Listed messages next →
  Forall (λ g, g ∈ List.map e_gmail_id (emails (st_db st))) messages →
  fetch_email_batch mb now st page_token batch_size
  = (st, {| b_emails := []; b_next_page_token := next;
            b_skipped_count := length messages |}).
Proof.
  intros Hlist Hall. unfold fetch_email_batch. rewrite Hlist.
  destruct messages as [|g rest]; [done|].
  rewrite batch_loop_all_existing; [done|].
  eapply Forall_impl; [exact Hall|].
  intros x Hx. by apply elem_of_existing_gmail_ids.
Qed.

Lemma fetch_email_batch_idempotent_witness :
  fetch_email_batch Sample.listed_m1 "t1" Sample.st1 None 50
  = (Sample.st1, {| b_emails := []; b_next_page_token := Some "p2";
                    b_skipped_count := 1 |}).
Proof.
  apply (fetch_email_batch_idempotent Sample.listed_m1 "t1" Sample.st1 None 50
           ["m1"] (Some "p2")).
  - reflexivity.
  - repeat constructor.
Defined.

(** C8: when listing the page raises, [fetch_email_batch] returns the
    empty list and no next cursor, and the store is untouched. *)
Theorem fetch_email_batch_listing_failure mb now st page_token batch_size :
  list_messages mb (usable_token page_token) batch_size = ListRaises →
  fetch_email_batch mb now st page_token batch_size
  = (st, {| b_emails := []; b_next_page_token := None; b_skipped_count := 0 |}).
Proof. intros Hlist. unfold fetch_email_batch. by rewrite Hlist. Qed.

Lemma fetch_email_batch_listing_failure_witness :
  fetch_email_batch Sample.unreachable "t1" Sample.st1 (Some "p1") 50
  = (Sample.st1, {| b_emails := []; b_next_page_token := None; b_skipped_count := 0 |}).
Proof.
  apply (fetch_email_batch_listing_failure Sample.unreachable "t1" Sample.st1 (Some "p1") 50).
  reflexivity.
Defined.

(** ** Email upsert *)

(** Re-ingesting a stored [gmail_id] keeps the number of rows. *)
Lemma upsert_email_existing_length d now a old :
  List.find (has_gmail_id (u_gmail_id a)) (emails d) = Some old →
  length (emails (upsert_email d now a).1) = length (emails d)
  ∧ (upsert_email d now a).2 = e_id old.
Proof.
  intros Hfind. unfold upsert_email. rewrite Hfind. simpl.
  by rewrite length_map.
Qed.

(** The value bound to the [is_read] placeholder is never NULL, so the
    [CASE] of the update clause always takes the bound value. *)
Lemma upsert_email_is_read_bound now a r :
  e_is_read (do_update_email now a (Some (is_read_val (u_is_read a))) r)
  = is_read_val (u_is_read a).
Proof. reflexivity. Qed.

Lemma find_gmail_id_None g rows :
  List.find (has_gmail_id g) rows = None → g ∉ List.map e_gmail_id rows.
Proof.
  induction rows as [|r rows IH]; simpl; [set_solver|].
  unfold has_gmail_id at 1. case_bool_decide as Hg; [done|].
  intros Hfind [Heq|Hin]%elem_of_cons; [by subst | by apply IH].
Qed.

Lemma conflict_update_gmail_ids now a x rows :
  List.map e_gmail_id
    (List.map (λ r, if has_gmail_id (u_gmail_id a) r
                    then do_update_email now a x r else r) rows)
  = List.map e_gmail_id rows.
Proof.
  induction rows as [|r rows IH]; simpl; [done|].
  rewrite IH. by destruct (has_gmail_id _ r).
Qed.

(** [gmail_id] stays unique under [upsert_email]: no duplicate row. *)
Lemma upsert_email_unique_gmail_id d now a :
  NoDup (List.map e_gmail_id (emails d)) →
  NoDup (List.map e_gmail_id (emails (upsert_email d now a).1)).
Proof.
  intros Hnd. unfold upsert_email.
  destruct (List.find _ _) eqn:Hfind; simpl.
  - by rewrite conflict_update_gmail_ids.
  - apply find_gmail_id_None in Hfind. rewrite map_app. simpl.
    apply NoDup_app. split; [exact Hnd|]. split; [|apply NoDup_singleton].
    intros x Hx ->%list_elem_of_singleton. by apply Hfind.
Qed.

(** After [upsert_email], every row of the upserted [gmail_id] carries
    the read flag computed from the argument, whatever was stored. *)
Lemma upsert_email_is_read_overwritten d now a :
  Forall (λ r, e_gmail_id r = u_gmail_id a → e_is_read r = is_read_val (u_is_read a))
    (emails (upsert_email d now a).1).
Proof.
  unfold upsert_email. destruct (List.find _ _) eqn:Hfind; simpl.
  - apply Forall_forall. intros r' [r [-> Hr]]%list_elem_of_fmap.
    unfold has_gmail_id. case_bool_decide as Hg; [done|]. intros Heq. by destruct Hg.
  - apply find_gmail_id_None in Hfind. apply Forall_app. split.
    + apply Forall_forall. intros r Hr Heq. destruct Hfind.
      rewrite <- Heq. by apply list_elem_of_fmap_2.
    + by repeat constructor.
Qed.

(** C3: re-ingesting a stored [gmail_id] keeps a single row for it and
    updates its fields in place, but the read flag is not preserved when
    no value is supplied: with [is_read = None] the row ends with the
    flag 0 whatever was stored.  On the stored, read message [m1] the
    flag goes from 1 to 0. *)
Theorem upsert_email_none_resets_read_flag :
  (∀ d now a,
     u_is_read a = None →
     Forall (λ r, e_gmail_id r = u_gmail_id a → e_is_read r = 0)
       (emails (upsert_email d now a).1))
  ∧ let a := {| u_gmail_id := "m1"; u_thread_id := Some "t1"; u_history_id := None;
                u_sender := "ann@example.org"; u_to_recipients := "bob@example.org";
                u_subject := "Hello"; u_date := "Mon, 1 Jan 2024"; u_snippet := "Hi";
                u_body := "Hi Bob, again"; u_labels := "INBOX,IMPORTANT";
                u_category := "Inbox"; u_is_read := None |} in
    let d' := (upsert_email Sample.db1 "t1" a).1 in
    List.map e_is_read (emails Sample.db1) = [1]
    ∧ List.map e_gmail_id (emails d') = ["m1"]
    ∧ List.map e_id (emails d') = [1]
    ∧ List.map e_body (emails d') = ["Hi Bob, again"]
    ∧ List.map e_labels (emails d') = ["INBOX,IMPORTANT"]
    ∧ List.map e_is_read (emails d') = [0].
Proof.
  split.
  - intros d now a Hnone.
    pose proof (upsert_email_is_read_overwritten d now a) as H.
    rewrite Hnone in H. exact H.
  - cbv zeta. repeat split.
Qed.

(** ** Full-sync driver *)

Lemma upsert_email_sync_metadata d now a :
  sync_metadata (upsert_email d now a).1 = sync_metadata d.
Proof. unfold upsert_email. by destruct (List.find _ _). Qed.

Lemma insert_attachment_sync_metadata d now eid fn c p sz :
  sync_metadata (insert_attachment d now eid fn c p sz).1 = sync_metadata d.
Proof.
  unfold insert_attachment. destruct (List.find _ _); [done|].
  by destruct (email_exists _ _).
Qed.

Lemma store_attachments_sync_metadata d now eid atts :
  sync_metadata (store_attachments d now eid atts) = sync_metadata d.
Proof.
  revert d. induction atts as [|att rest IH]; intros d; simpl; [done|].
  destruct (insert_attachment _ _ _ _ _ _ _) as [d' r] eqn:Hins.
  rewrite IH. change d' with (d', r).1. rewrite <- Hins.
  apply insert_attachment_sync_metadata.
Qed.

Lemma _process_email_sync_metadata mb now st g :
  sync_metadata (st_db (_process_email mb now st g).1) = sync_metadata (st_db st).
Proof.
  unfold _process_email. destruct (get_message mb g) as [m|]; [|done].
  destruct (upsert_email _ _ _) as [d1 id] eqn:Hup. simpl.
  rewrite store_attachments_sync_metadata.
  change d1 with (d1, id).1. rewrite <- Hup. apply upsert_email_sync_metadata.
Qed.

Lemma batch_loop_sync_metadata mb now ids messages st emails skipped :
  sync_metadata (st_db (batch_loop mb now ids messages st emails skipped).1.1)
  = sync_metadata (st_db st).
Proof.
  revert st emails skipped.
  induction messages as [|g rest IH]; intros st emails skipped; simpl; [done|].
  destruct (decide (g ∈ ids)); [apply IH|].
  destruct (_process_email mb now st g) as [st' e] eqn:Hp.
  assert (Hst' : sync_metadata (st_db st') = sync_metadata (st_db st)).
  { change st' with (st', e).1. rewrite <- Hp. apply _process_email_sync_metadata. }
  destruct e; rewrite IH; exact Hst'.
Qed.

Lemma fetch_email_batch_sync_metadata mb now st page_token batch_size :
  sync_metadata (st_db (fetch_email_batch mb now st page_token batch_size).1)
  = sync_metadata (st_db st).
Proof.
  unfold fetch_email_batch.
  destruct (list_messages _ _ _) as [|messages next]; [done|].
  destruct messages as [|g rest]; [done|].
  destruct (batch_loop _ _ _ _ _ _ _) as [[st' es] sk] eqn:Hl. simpl.
  change st' with (st', es, sk).1.1. rewrite <- Hl. apply batch_loop_sync_metadata.
Qed.

(** After one page the checkpoint holds the new cursor and the time, and
    the cumulative counter is what it was before the page. *)
Lemma sync_page_checkpoint mb now clock st page_token batch_size :
  let r := sync_page mb now clock st page_token batch_size in
  get_sync_metadata (st_db r.1) "last_page_token"
    = Some (default "" (b_next_page_token r.2))
  ∧ get_sync_metadata (st_db r.1) "last_sync_time" = Some (str_of_int clock)
  ∧ get_sync_metadata (st_db r.1) "total_emails_fetched"
    = get_sync_metadata (st_db st) "total_emails_fetched".
Proof.
  cbv zeta. unfold sync_page.
  pose proof (fetch_email_batch_sync_metadata mb now st page_token batch_size) as Hm.
  destruct (fetch_email_batch _ _ _ _ _) as [st1 res]. simpl in *.
  unfold get_sync_metadata, update_sync_metadata. simpl.
  split; [|split].
  - rewrite lookup_insert_ne by done. by rewrite lookup_insert_eq.
  - by rewrite lookup_insert_eq.
  - rewrite !lookup_insert_ne by done. by rewrite Hm.
Qed.

Lemma sync_loop_counter fuel mb now clock batch_size max_emails st page_token total n :
  match sync_loop fuel mb now clock batch_size max_emails st page_token total n with
  | Some (st', _, _) =>
      get_sync_metadata (st_db st') "total_emails_fetched"
      = get_sync_metadata (st_db st) "total_emails_fetched"
  | None => True
  end.
Proof.
  revert st page_token total n.
  induction fuel as [|fuel IH]; intros st page_token total n; simpl; [done|].
  pose proof (sync_page_checkpoint mb now (clock (S n)) st page_token batch_size)
    as (_ & _ & Hc).
  destruct (sync_page _ _ _ _ _ _) as [st' res]. simpl in Hc.
  destruct (no_token _ || _)%bool; [done|].
  assert (Hrec : ∀ tk tot k,
    match sync_loop fuel mb now clock batch_size max_emails st' tk tot k with
    | Some (st'', _, _) =>
        get_sync_metadata (st_db st'') "total_emails_fetched"
        = get_sync_metadata (st_db st) "total_emails_fetched"
    | None => True
    end).
  { intros tk tot k. specialize (IH st' tk tot k).
    destruct (sync_loop _ _ _ _ _ _ _ _ _ _) as [[[st'' ?] ?]|]; [|done].
    by rewrite IH. }
  destruct max_emails as [m|]; [|apply Hrec].
  destruct (negb _ && _)%bool; [done|apply Hrec].
Qed.

(** C7: [fetch_all_emails] writes the cursor and the time after every
    page but never the cumulative counter: whatever the mailbox, the key
    [total_emails_fetched] is after the run what it was before.  On an
    empty store and a one-page mailbox with one new message, the run
    processes 1 message and leaves the counter absent. *)
Theorem fetch_all_emails_counter_not_written :
  (∀ fuel mb now clock batch_size max_emails st,
     match fetch_all_emails fuel mb now clock batch_size max_emails st with
     | Some (st', _, _) =>
         get_sync_metadata (st_db st') "total_emails_fetched"
         = get_sync_metadata (st_db st) "total_emails_fetched"
     | None => True
     end)
  ∧ (∀ mb now clock st page_token batch_size,
       let r := sync_page mb now clock st page_token batch_size in
       get_sync_metadata (st_db r.1) "last_page_token"
         = Some (default "" (b_next_page_token r.2))
       ∧ get_sync_metadata (st_db r.1) "last_sync_time" = Some (str_of_int clock))
  ∧ match fetch_all_emails 3 Sample.one_new "t1" (λ _, 1700000000) 100 None
            {| st_db := empty_db; st_fetched := [] |} with
    | Some (st', total_processed, batch_count) =>
        total_processed = 1 ∧ batch_count = 1%nat
        ∧ List.map e_gmail_id (emails (st_db st')) = ["m2"]
        ∧ get_sync_metadata (st_db st') "last_page_token" = Some ""
        ∧ get_sync_metadata (st_db st') "last_sync_time" = Some "1700000000"
        ∧ get_sync_metadata (st_db st') "total_emails_fetched" = None
    | None => False
    end.
Proof.
  split; [|split].
  - intros. unfold fetch_all_emails. apply sync_loop_counter.
  - intros mb now clock st page_token batch_size r.
    pose proof (sync_page_checkpoint mb now clock st page_token batch_size) as (H1 & H2 & _).
    by split.
  - vm_compute. repeat split.
Qed.

(** ** Attachments *)

Lemma find_attachment_key_None k rows :
  List.find (has_attachment_key k) rows = None →
  k ∉ List.map attachment_key rows.
Proof.
  induction rows as [|r rows IH]; simpl; [set_solver|].
  unfold has_attachment_key at 1. case_bool_decide as Hk; [done|].
  intros Hfind [Heq|Hin]%elem_of_cons; [by subst | by apply IH].
Qed.

Lemma find_attachment_key_Some k rows :
  k ∈ List.map attachment_key rows →
  is_Some (List.find (has_attachment_key k) rows).
Proof.
  intros Hin. destruct (List.find _ _) eqn:Hf; [by eexists|].
  by apply find_attachment_key_None in Hf.
Qed.

Lemma do_update_attachment_key p c r :
  attachment_key (do_update_attachment p c r) = attachment_key r.
Proof. reflexivity. Qed.

Lemma conflict_update_kept k p c rows :
  Forall2 (attachment_kept c) rows
    (List.map (λ r, if has_attachment_key k r then do_update_attachment p c r else r) rows).
Proof.
  induction rows as [|r rows IH]; simpl; constructor; [|exact IH].
  destruct (has_attachment_key k r); unfold attachment_kept; simpl.
  - repeat split.
    + destruct c; simpl; [done|tauto].
    + by intros ->.
  - repeat split; tauto.
Qed.

Lemma conflict_update_keys k p c rows :
  List.map attachment_key
    (List.map (λ r, if has_attachment_key k r then do_update_attachment p c r else r) rows)
  = List.map attachment_key rows.
Proof.
  induction rows as [|r rows IH]; simpl; [done|].
  rewrite IH. by destruct (has_attachment_key k r).
Qed.

(** C9: the key (email id, filename, size) is unique among stored
    attachments: it is in the empty table and every [insert_attachment]
    keeps it.  An insert whose key is already stored adds no row and
    changes no id or key; a stored content blob is never replaced by
    NULL, and when the new attempt has no content every stored blob is
    kept as it is. *)
Theorem insert_attachment_unique_key d now eid filename content content_preview size :
  NoDup (List.map attachment_key (attachments d)) →
  let d' := (insert_attachment d now eid filename content content_preview size).1 in
  let key := (eid, str_or filename "unknown", attachment_size size content) in
  NoDup (List.map attachment_key (attachments empty_db))
  ∧ NoDup (List.map attachment_key (attachments d'))
  ∧ (key ∈ List.map attachment_key (attachments d) →
       length (attachments d') = length (attachments d)
       ∧ Forall2 (attachment_kept content) (attachments d) (attachments d')).
Proof.
  intros Hnd d' key. subst d'. unfold insert_attachment. fold key.
  split; [constructor|].
  destruct (List.find (has_attachment_key key) (attachments d)) as [old|] eqn:Hfind.
  - simpl. rewrite conflict_update_keys. split; [exact Hnd|].
    intros _. split; [by rewrite length_map|apply conflict_update_kept].
  - apply find_attachment_key_None in Hfind.
    split.
    + destruct (email_exists d eid); simpl; [|exact Hnd].
      rewrite map_app. simpl. apply NoDup_app. split; [exact Hnd|].
      split; [|apply NoDup_singleton].
      intros x Hx ->%list_elem_of_singleton. by apply Hfind.
    + intros Hin. by destruct Hfind.
Qed.

Lemma insert_attachment_unique_key_witness :
  let d' := (insert_attachment SampleAttachment.db2 "t1" 1 "report.pdf" None
               (Some "Failed to fetch attachment content") (Some 4)).1 in
  NoDup (List.map attachment_key (attachments d'))
  ∧ List.map a_content (attachments d') = [Some SampleAttachment.pdf].
Proof.
  destruct (insert_attachment_unique_key SampleAttachment.db2 "t1" 1 "report.pdf" None
              (Some "Failed to fetch attachment content") (Some 4))
    as (_ & Hnd & _).
  - simpl. apply NoDup_singleton.
  - split; [exact Hnd|reflexivity].
Defined.

(** ** Analysis producer *)

Section Validation.

Variable py_repr : json → string.
Variable py_int_of_str : string → option Z.

Local Abbreviation validate := (_validate_analysis_results py_repr py_int_of_str).
Local Abbreviation to_int := (py_int py_int_of_str).


(** The validation returns exactly on the dictionaries whose four
    typed fields can be converted. *)
Lemma validate_returns_iff kv :
  is_Some (validate (JDict kv)) ↔
    is_Some (to_int (get kv "priority_score" (JInt 3)))
    ∧ (∃ s, get kv "sentiment" (JStr "neutral") = JStr s)
    ∧ is_Some (py_slice 5 (get kv "suggested_actions" (JList [])))
    ∧ is_Some (py_slice 10 (get kv "key_topics" (JList []))).
Proof.
  unfold _validate_analysis_results.
  destruct (to_int _) as [p|];
    destruct (get kv "sentiment" _) as [| | | |s| |];
    destruct (py_slice 5 _) as [a|];
    destruct (py_slice 10 _) as [t|];
    split; try (intros [? ?]; discriminate);
    try (intros ([? ?] & [? ?] & [? ?] & [? ?]); discriminate);
    try (intros _; by eexists);
    intros _; repeat split; by eexists.
Qed.


End Validation.



Section Producer.

Variable py_repr : json → string.
Variable py_int_of_str : string → option Z.
Variable json_loads : string → option json.
Variable clean : string → string.
Variable llm : nat → string → llm_result.

Local Abbreviation validate := (_validate_analysis_results py_repr py_int_of_str).
Local Abbreviation parse := (parse_response py_repr py_int_of_str json_loads).
Local Abbreviation run := (_run_ai_analysis py_repr py_int_of_str json_loads llm).
Local Abbreviation analyze :=
  (analyze_email py_repr py_int_of_str json_loads clean llm).
Local Abbreviation failed := (model_failed py_repr py_int_of_str json_loads).
Local Abbreviation repeat_analyze :=
  (analyze_repeat py_repr py_int_of_str json_loads clean llm).

Lemma parse_response_failed r : failed r → parse r = _get_fallback_analysis.
Proof.
  intros [->|(content & -> & [Hnone|(results & Hsome & Hval)])]; simpl.
  - done.
  - by rewrite Hnone.
  - by rewrite Hsome, Hval.
Qed.

Lemma find_after_replace id rows new :
  r_email_id new = id →
  List.find (has_email_id id)
    (List.filter (λ r, negb (has_email_id id r)) rows ++ [new]) = Some new.
Proof.
  intros Hid. induction rows as [|r rows IH]; simpl.
  - unfold has_email_id. by rewrite bool_decide_eq_true_2.
  - destruct (has_email_id id r) eqn:Hr; simpl; [exact IH|].
    by rewrite Hr.
Qed.

Lemma _is_already_analyzed_get d id :
  _is_already_analyzed d id = true → is_Some (_get_existing_analysis d id).
Proof.
  unfold _is_already_analyzed, _get_existing_analysis.
  destruct (List.find _ _); [by eexists|done].
Qed.

(** A call on an analysed message reads the row and touches nothing. *)
Lemma analyze_email_cached st timestamp elapsed_ms email_data :
  _is_already_analyzed (an_db st) (e_id email_data) = true →
  analyze st timestamp elapsed_ms email_data
  = (st, _get_existing_analysis (an_db st) (e_id email_data)).
Proof. intros H. unfold analyze_email. by rewrite H. Qed.

Lemma email_exists_mark d id id' :
  email_exists (_mark_email_analyzed d id') id = email_exists d id.
Proof.
  unfold email_exists, _mark_email_analyzed. cbn [emails set_emails].
  rewrite map_map.
  assert (Hmap : ∀ (g : email_row → email_row) (l : list email_row),
            (∀ r, e_id (g r) = e_id r) →
            List.map (λ x, e_id (g x)) l = List.map e_id l).
  { intros g l Hg. apply map_ext. exact Hg. }
  rewrite Hmap; [done|]. intros r. by case_bool_decide.
Qed.

(** A call on a stored message that has no analysis yet invokes the
    model once, stores the row and returns it. *)
Lemma analyze_email_fresh st timestamp elapsed_ms email_data :
  email_exists (an_db st) (e_id email_data) = true →
  _is_already_analyzed (an_db st) (e_id email_data) = false →
  let r := analyze st timestamp elapsed_ms email_data in
  let a := analysis_of email_data
             (parse (llm (an_llm_calls st) (_prepare_email_content clean email_data)))
             timestamp elapsed_ms in
  r.2 = Some a
  ∧ an_llm_calls r.1 = S (an_llm_calls st)
  ∧ _is_already_analyzed (an_db r.1) (e_id email_data) = true
  ∧ _get_existing_analysis (an_db r.1) (e_id email_data) = Some a
  ∧ email_exists (an_db r.1) (e_id email_data) = true
  ∧ Forall (λ row, e_id row = e_id email_data → e_ai_analyzed row = true)
      (emails (an_db r.1)).
Proof.
  intros Hex Hnot. cbv zeta. unfold analyze_email. rewrite Hnot.
  unfold _run_ai_analysis. cbn [an_db an_llm_calls fst snd].
  fold (analysis_of email_data
          (parse (llm (an_llm_calls st) (_prepare_email_content clean email_data)))
          timestamp elapsed_ms).
  set (a := analysis_of _ _ _ _).
  split; [done|]. split; [done|].
  assert (Hfind : List.find (has_email_id (e_id email_data))
            (email_analysis (_mark_email_analyzed (_store_analysis (an_db st) a)
                               (e_id email_data)))
          = Some {| r_id := email_analysis_seq (an_db st) + 1;
                    r_email_id := email_id a; r_gmail_id := gmail_id a;
                    r_summary := summary a; r_priority_score := priority_score a;
                    r_priority_reason := priority_reason a;
                    r_sentiment := sentiment a; r_draft_reply := draft_reply a;
                    r_action_required := action_required a;
                    r_suggested_actions := suggested_actions a;
                    r_key_topics := key_topics a;
                    r_analysis_timestamp := analysis_timestamp a;
                    r_processing_time_ms := processing_time_ms a |}).
  { unfold _store_analysis. change (email_id a) with (e_id email_data).
    rewrite Hex. cbn [_mark_email_analyzed set_emails set_email_analysis email_analysis].
    by apply find_after_replace. }
  split; [unfold _is_already_analyzed; by rewrite Hfind|].
  split; [unfold _get_existing_analysis; by rewrite Hfind|].
  split.
  { rewrite email_exists_mark. unfold _store_analysis.
    change (email_id a) with (e_id email_data). by rewrite Hex. }
  unfold _mark_email_analyzed. cbn [emails set_emails].
  apply Forall_forall. intros row [r [-> Hr]]%list_elem_of_fmap.
  case_bool_decide; [done|]. intros; contradiction.
Qed.

Lemma analyze_repeat_cached st readings email_data :
  _is_already_analyzed (an_db st) (e_id email_data) = true →
  repeat_analyze st readings email_data
  = (st, List.map (λ _, _get_existing_analysis (an_db st) (e_id email_data)) readings).
Proof.
  intros H. induction readings as [|[ts ms] rest IH]; simpl; [done|].
  rewrite analyze_email_cached by done. by rewrite IH.
Qed.


(** C5: when the model call raises, or its text is not JSON, or the
    parsed value cannot be validated, [_run_ai_analysis] returns the
    fixed fallback payload (priority 3, sentiment "neutral", action
    required); [analyze_email] on a message without analysis then
    returns an analysis with these values instead of failing. *)
Theorem run_ai_analysis_fallback st email_content :
  failed (llm (an_llm_calls st) email_content) →
  let res := (run st email_content).2 in
  res = _get_fallback_analysis
  ∧ v_priority_score res = 3
  ∧ v_sentiment res = "neutral"
  ∧ v_action_required res = true
  ∧ ∀ timestamp elapsed_ms email_data,
      email_content = _prepare_email_content clean email_data →
      _is_already_analyzed (an_db st) (e_id email_data) = false →
      ∃ a, (analyze st timestamp elapsed_ms email_data).2 = Some a
           ∧ priority_score a = 3
           ∧ sentiment a = "neutral"
           ∧ action_required a = true.
Proof.
  intros Hfail. cbv zeta. unfold _run_ai_analysis. cbn [snd].
  rewrite (parse_response_failed _ Hfail).
  repeat split.
  intros timestamp elapsed_ms email_data -> Hnot.
  unfold analyze_email. rewrite Hnot. unfold _run_ai_analysis.
  rewrite (parse_response_failed _ Hfail). cbn [snd an_llm_calls an_db].
  eexists. split; [reflexivity|]. repeat split.
Qed.

(** C10: when the model fails on a stored message that has no analysis
    yet, [analyze_email] stores the fallback payload as its analysis
    row and sets [ai_analyzed] on the message; every later call for the
    message returns this stored fallback and leaves the state, and so
    the number of model invocations, unchanged. *)
Theorem failed_analysis_is_cached st timestamp elapsed_ms email_data readings :
  email_exists (an_db st) (e_id email_data) = true →
  _is_already_analyzed (an_db st) (e_id email_data) = false →
  failed (llm (an_llm_calls st) (_prepare_email_content clean email_data)) →
  let r := analyze st timestamp elapsed_ms email_data in
  let fallback := analysis_of email_data _get_fallback_analysis timestamp elapsed_ms in
  r.2 = Some fallback
  ∧ an_llm_calls r.1 = S (an_llm_calls st)
  ∧ _get_existing_analysis (an_db r.1) (e_id email_data) = Some fallback
  ∧ email_exists (an_db r.1) (e_id email_data) = true
  ∧ Forall (λ row, e_id row = e_id email_data → e_ai_analyzed row = true)
      (emails (an_db r.1))
  ∧ let later := repeat_analyze r.1 readings email_data in
    later.1 = r.1
    ∧ an_llm_calls later.1 = S (an_llm_calls st)
    ∧ Forall (λ x, x = Some fallback) later.2.
Proof.
  intros Hex Hnot Hfail. cbv zeta.
  destruct (analyze_email_fresh st timestamp elapsed_ms email_data Hex Hnot)
    as (Hr & Hcalls & Han & Hget & Hex' & Hflag).
  rewrite (parse_response_failed _ Hfail) in Hr, Hget.
  rewrite analyze_repeat_cached by exact Han. cbn [fst snd].
  rewrite Hget.
  repeat split; try done.
  apply Forall_forall. by intros x [? [-> _]]%list_elem_of_fmap.
Qed.

End Producer.


Lemma run_ai_analysis_fallback_witness :
  (_run_ai_analysis SampleModel.repr SampleModel.int_of_str SampleModel.loads
     SampleModel.llm_prose SampleModel.st0 "mail").2 = _get_fallback_analysis.
Proof.
  destruct (run_ai_analysis_fallback SampleModel.repr SampleModel.int_of_str
              SampleModel.loads SampleModel.clean_html SampleModel.llm_prose
              SampleModel.st0 "mail") as (H & _); [|exact H].
  right. eexists. split; [reflexivity|]. left. reflexivity.
Defined.

Lemma failed_analysis_is_cached_witness :
  let later :=
    analyze_repeat SampleModel.repr SampleModel.int_of_str SampleModel.loads
      SampleModel.clean_html SampleModel.llm_down
      (analyze_email SampleModel.repr SampleModel.int_of_str SampleModel.loads
         SampleModel.clean_html SampleModel.llm_down
         SampleModel.st0 "2024-01-02T10:00:00" 12 Sample.row1).1
      [("2024-01-03T10:00:00", 3); ("2024-01-04T10:00:00", 4)] Sample.row1 in
  an_llm_calls later.1 = 1%nat
  ∧ Forall (λ x, x = Some (analysis_of Sample.row1 _get_fallback_analysis
                            "2024-01-02T10:00:00" 12)) later.2.
Proof.
  destruct (failed_analysis_is_cached SampleModel.repr SampleModel.int_of_str
              SampleModel.loads SampleModel.clean_html SampleModel.llm_down
              SampleModel.st0 "2024-01-02T10:00:00" 12 Sample.row1
              [("2024-01-03T10:00:00", 3); ("2024-01-04T10:00:00", 4)])
    as (_ & _ & _ & _ & _ & _ & Hcalls & Hall);
    [reflexivity | reflexivity | by left |].
  split; [exact Hcalls|exact Hall].
Defined.

(** * Further properties *)

(** ** Checkpoint *)

(** X1: a checkpoint key reads back the value last written to it; writing
    a key leaves every other key and the three tables as they were, and
    a second write to the same key replaces the first. *)
Theorem sync_metadata_round_trip (d : db) (key value value' other : string) :
  get_sync_metadata (update_sync_metadata d key value) key = Some value
  ∧ (other ≠ key →
       get_sync_metadata (update_sync_metadata d key value) other
       = get_sync_metadata d other)
  ∧ emails (update_sync_metadata d key value) = emails d
  ∧ attachments (update_sync_metadata d key value) = attachments d
  ∧ email_analysis (update_sync_metadata d key value) = email_analysis d
  ∧ update_sync_metadata (update_sync_metadata d key value) key value'
    = update_sync_metadata d key value'.
Proof.
  unfold get_sync_metadata, update_sync_metadata, set_sync_metadata. simpl.
  split; [apply lookup_insert_eq|].
  split; [intros Hne; by apply lookup_insert_ne|].
  repeat split. by rewrite insert_insert_eq.
Qed.

Lemma int_of_decimal_str_of_int (z : Z) : int_of_decimal (str_of_int z) = Some z.
Proof.
  unfold int_of_decimal, str_of_int.
  rewrite NilZero.isi.
  - simpl. f_equal. apply DecimalZ.of_to.
  - destruct z; simpl; try discriminate.
    intros [= H]. by apply (DecimalPos.Unsigned.to_uint_nonnil p).
  - destruct z; simpl; try discriminate.
    intros [= H]. by apply (DecimalPos.Unsigned.to_uint_nonnil p).
Qed.

Section CounterProperties.

Variable py_int_of_str : string → option Z.

(** [int] reads back what [str] writes. *)
Hypothesis int_of_str_of_int : ∀ z, py_int_of_str (str_of_int z) = Some z.

(** X2: once the counter can be read, [update_fetch_metadata] adds
    [max(0, emails_fetched)] to it, so the counter never decreases; the
    cursor is replaced only when a token is given and the sync time is
    not touched. *)
Theorem update_fetch_metadata_accumulates d page_token emails_fetched m :
  get_fetch_metadata py_int_of_str d = Some m →
  let r := update_fetch_metadata py_int_of_str d page_token emails_fetched in
  r.2 = true
  ∧ get_fetch_metadata py_int_of_str r.1
    = Some {| last_fetch_token := match page_token with
                                  | Some t => Some t
                                  | None => last_fetch_token m
                                  end;
              total_emails_fetched := total_emails_fetched m + Z.max 0 emails_fetched;
              last_fetch_time := last_fetch_time m |}
  ∧ total_emails_fetched m ≤ total_emails_fetched m + Z.max 0 emails_fetched.
Proof.
  unfold get_fetch_metadata. intros Hm.
  destruct (py_int_of_str (or_zero (get_sync_metadata d "total_emails_fetched")))
    as [n|] eqn:Hn; [|done].
  injection Hm as <-. cbv zeta. unfold update_fetch_metadata.
  assert (Hcur : ∀ d1, get_sync_metadata d1 "total_emails_fetched"
                       = get_sync_metadata d "total_emails_fetched" →
            py_int_of_str (or_zero (get_sync_metadata d1 "total_emails_fetched")) = Some n).
  { intros d1 ->. exact Hn. }
  assert (Hstr : ∀ z, or_zero (Some (str_of_int z)) = str_of_int z).
  { intros z. unfold or_zero. case_decide as He; [|done].
    pose proof (int_of_decimal_str_of_int z) as Hz. rewrite He in Hz. discriminate Hz. }
  destruct page_token as [t|]; cbn [fst snd last_fetch_token total_emails_fetched last_fetch_time].
  - rewrite Hcur
      by (unfold get_sync_metadata, update_sync_metadata; simpl; by rewrite lookup_insert_ne).
    cbn [fst snd]. split; [done|]. split; [|lia].
    unfold get_sync_metadata, update_sync_metadata. simpl.
    rewrite lookup_insert_eq, Hstr, int_of_str_of_int.
    rewrite (lookup_insert_ne _ "total_emails_fetched" "last_page_token") by done.
    rewrite lookup_insert_eq.
    by rewrite !lookup_insert_ne by done.
  - rewrite Hn. cbn [fst snd]. split; [done|]. split; [|lia].
    unfold get_sync_metadata, update_sync_metadata. simpl.
    rewrite lookup_insert_eq, Hstr, int_of_str_of_int.
    by rewrite !lookup_insert_ne by done.
Qed.

End CounterProperties.

Lemma update_fetch_metadata_accumulates_witness :
  let r := update_fetch_metadata int_of_decimal empty_db (Some "p2") 7 in
  r.2 = true
  ∧ get_fetch_metadata int_of_decimal r.1
    = Some {| last_fetch_token := Some "p2"; total_emails_fetched := 7;
              last_fetch_time := None |}.
Proof.
  destruct (update_fetch_metadata_accumulates int_of_decimal int_of_decimal_str_of_int
              empty_db (Some "p2") 7
              {| last_fetch_token := None; total_emails_fetched := 0;
                 last_fetch_time := None |})
    as (H1 & H2 & _); [reflexivity|].
  split; [exact H1|exact H2].
Defined.

(** ** The emails table *)

Lemma map_proj_update {A B} (proj : A → B) (c : A → bool) (g : A → A) (l : list A) :
  (∀ r, proj (g r) = proj r) →
  List.map proj (List.map (λ r, if c r then g r else r) l) = List.map proj l.
Proof.
  intros Hg. induction l as [|r l IH]; simpl; [done|].
  rewrite IH. by destruct (c r); rewrite ?Hg.
Qed.

Lemma NoDup_map_filter {A B} (proj : A → B) (p : A → bool) (l : list A) :
  NoDup (List.map proj l) → NoDup (List.map proj (List.filter p l)).
Proof.
  induction l as [|r l IH]; simpl; [done|].
  intros [Hnin Hnd]%NoDup_cons. destruct (p r); simpl; [|by apply IH].
  apply NoDup_cons. split; [|by apply IH].
  intros Hin. apply Hnin.
  apply list_elem_of_fmap in Hin as (x & -> & Hx).
  apply list_elem_of_fmap_2. apply list_elem_of_In in Hx.
  apply filter_In in Hx as [Hx _]. by apply list_elem_of_In.
Qed.

Lemma elem_of_List_filter {A} (p : A → bool) (l : list A) (x : A) :
  x ∈ List.filter p l ↔ x ∈ l ∧ p x = true.
Proof. rewrite !list_elem_of_In. apply filter_In. Qed.

Lemma find_map_update {A} (c : A → bool) (g : A → A) (l : list A) :
  (∀ r, c (g r) = c r) →
  List.find c (List.map (λ r, if c r then g r else r) l) = g <$> List.find c l.
Proof.
  intros Hg. induction l as [|r l IH]; simpl; [done|].
  destruct (c r) eqn:Hr; [by rewrite Hg, Hr|]. by rewrite Hr.
Qed.

Lemma find_app_None {A} (c : A → bool) (l : list A) (x : A) :
  List.find c l = None → List.find c (l ++ [x]) = (if c x then Some x else None).
Proof.
  induction l as [|r l IH]; simpl; [done|]. destruct (c r); [done|exact IH].
Qed.

Lemma upsert_email_ids d now a :
  List.map e_id (emails (upsert_email d now a).1)
  = match List.find (has_gmail_id (u_gmail_id a)) (emails d) with
    | Some _ => List.map e_id (emails d)
    | None => (List.map e_id (emails d) ++ [emails_seq d + 1])%list
    end.
Proof.
  unfold upsert_email. destruct (List.find _ _); simpl.
  - by apply map_proj_update.
  - by rewrite map_app.
Qed.

Lemma upsert_email_wf d now a : emails_wf d → emails_wf (upsert_email d now a).1.
Proof.
  intros (Hg & Hi & Hs). split; [by apply upsert_email_unique_gmail_id|].
  split.
  - rewrite upsert_email_ids. destruct (List.find _ _); [done|].
    apply NoDup_app. split; [done|]. split; [|apply NoDup_singleton].
    intros x Hx ->%list_elem_of_singleton.
    apply list_elem_of_fmap in Hx as (r & Hr & Hin).
    rewrite Forall_forall in Hs. specialize (Hs r Hin). lia.
  - unfold upsert_email. destruct (List.find _ _); simpl.
    + apply Forall_forall. intros r' (r & -> & Hin)%list_elem_of_fmap.
      rewrite Forall_forall in Hs. specialize (Hs r Hin).
      by destruct (has_gmail_id _ r).
    + apply Forall_app. split.
      * eapply Forall_impl; [exact Hs|]. simpl. intros; lia.
      * repeat constructor. simpl. lia.
Qed.

(** X3: after [upsert_email] the row found under the [gmail_id] has the
    returned id and carries the values passed in: thread, sender,
    recipients, subject, date, snippet, body and labels as given, the
    category or "Other" when it is empty, and the update time. *)
Theorem upsert_email_lookup d now a :
  let r := upsert_email d now a in
  ∃ row, List.find (has_gmail_id (u_gmail_id a)) (emails r.1) = Some row
    ∧ e_id row = r.2
    ∧ e_gmail_id row = u_gmail_id a
    ∧ e_thread_id row = u_thread_id a
    ∧ e_history_id row = u_history_id a
    ∧ e_sender row = u_sender a
    ∧ e_to_recipients row = u_to_recipients a
    ∧ e_subject row = u_subject a
    ∧ e_date row = u_date a
    ∧ e_snippet row = u_snippet a
    ∧ e_body row = u_body a
    ∧ e_labels row = u_labels a
    ∧ e_category row = (if decide (u_category a = "") then "Other" else u_category a)
    ∧ e_updated_at row = now.
Proof.
  assert (Hor : ∀ x, str_or x "" = x).
  { intros x. unfold str_or. by case_decide. }
  cbv zeta. unfold upsert_email.
  destruct (List.find _ (emails d)) as [old|] eqn:Hfind; simpl.
  - rewrite find_map_update by done. rewrite Hfind. simpl.
    eexists. split; [reflexivity|]. simpl. rewrite !Hor.
    apply find_some in Hfind as [_ Hg]. unfold has_gmail_id in Hg.
    apply bool_decide_eq_true in Hg. by repeat split.
  - rewrite find_app_None by done. unfold has_gmail_id at 1. simpl.
    rewrite bool_decide_eq_true_2 by done.
    eexists. split; [reflexivity|]. simpl. rewrite !Hor. by repeat split.
Qed.

(** X4: uniqueness of [gmail_id] and of [id], with every id at most the
    AUTOINCREMENT counter, holds in the empty store and is kept by
    [upsert_email], [mark_email_as_read],
    [update_email_labels_and_category], [delete_email] and
    [_mark_email_analyzed]. *)
Theorem emails_wf_preserved d now a id read gmail_id labels_csv category :
  emails_wf d →
  emails_wf empty_db
  ∧ emails_wf (upsert_email d now a).1
  ∧ emails_wf (mark_email_as_read d now id read)
  ∧ emails_wf (update_email_labels_and_category d now gmail_id labels_csv category)
  ∧ emails_wf (delete_email d id)
  ∧ emails_wf (_mark_email_analyzed d id).
Proof.
  intros Hwf.
  split; [repeat split; constructor|].
  split; [by apply upsert_email_wf|].
  destruct Hwf as (Hg & Hi & Hs).
  assert (Hupd : ∀ (c : email_row → bool) (g : email_row → email_row),
            (∀ r, e_gmail_id (g r) = e_gmail_id r) → (∀ r, e_id (g r) = e_id r) →
            emails_wf (set_emails d (List.map (λ r, if c r then g r else r) (emails d))
                         (emails_seq d))).
  { intros c g Hgg Hgi. unfold emails_wf. simpl.
    rewrite !map_proj_update by done. repeat split; [done|done|].
    apply Forall_forall. intros r' (r & -> & Hin)%list_elem_of_fmap.
    rewrite Forall_forall in Hs. specialize (Hs r Hin).
    destruct (c r); by rewrite ?Hgi. }
  split; [by apply Hupd|]. split; [by apply Hupd|].
  split; [|by apply Hupd].
  unfold emails_wf, delete_email. simpl.
  split; [by apply NoDup_map_filter|]. split; [by apply NoDup_map_filter|].
  apply Forall_forall. intros r [Hr _]%elem_of_List_filter.
  rewrite Forall_forall in Hs. by apply Hs.
Qed.

Lemma emails_wf_preserved_witness :
  emails_wf (upsert_email Sample.db1 "t1"
               {| u_gmail_id := "m9"; u_thread_id := None; u_history_id := None;
                  u_sender := "zoe@example.org"; u_to_recipients := "";
                  u_subject := "Notes"; u_date := "Wed, 3 Jan 2024"; u_snippet := "";
                  u_body := ""; u_labels := ""; u_category := "";
                  u_is_read := Some 1 |}).1.
Proof.
  destruct (emails_wf_preserved Sample.db1 "t1"
              {| u_gmail_id := "m9"; u_thread_id := None; u_history_id := None;
                 u_sender := "zoe@example.org"; u_to_recipients := "";
                 u_subject := "Notes"; u_date := "Wed, 3 Jan 2024"; u_snippet := "";
                 u_body := ""; u_labels := ""; u_category := "";
                 u_is_read := Some 1 |} 1 true "m1" "INBOX" "Inbox")
    as (_ & H & _); [|exact H].
  unfold emails_wf. simpl. split; [apply NoDup_singleton|].
  split; [apply NoDup_singleton|]. repeat constructor. simpl. lia.
Defined.

(** X5: a message id is never given twice: upserting a [gmail_id] that is
    not stored appends one row whose id is the counter plus one, an id no
    stored row has; this also holds after rows were deleted, so the id of
    a deleted message is not reused. *)
Theorem upsert_email_fresh_id d now a deleted :
  emails_wf d →
  u_gmail_id a ∉ List.map e_gmail_id (emails d) →
  let r := upsert_email (delete_email d deleted) now a in
  r.2 = emails_seq d + 1
  ∧ (r.2 ∉ List.map e_id (emails d))
  ∧ ∃ row, emails r.1 = (emails (delete_email d deleted) ++ [row])%list
           ∧ e_id row = r.2 ∧ e_gmail_id row = u_gmail_id a.
Proof.
  intros (Hg & Hi & Hs) Hnew. cbv zeta. unfold upsert_email.
  destruct (List.find _ (emails (delete_email d deleted))) as [old|] eqn:Hfind.
  - apply find_some in Hfind as [Hin Hold]. exfalso. apply Hnew.
    apply list_elem_of_In, elem_of_List_filter in Hin as [Hin _].
    unfold has_gmail_id in Hold. apply bool_decide_eq_true in Hold. rewrite <- Hold.
    by apply list_elem_of_fmap_2.
  - simpl. split; [done|]. split.
    + intros (r & Hr & Hin)%list_elem_of_fmap.
      rewrite Forall_forall in Hs. specialize (Hs r Hin). lia.
    + eexists. split; [reflexivity|]. by split.
Qed.

Lemma upsert_email_fresh_id_witness :
  (upsert_email (delete_email Sample.db1 1) "t1"
     {| u_gmail_id := "m9"; u_thread_id := None; u_history_id := None;
        u_sender := "zoe@example.org"; u_to_recipients := "";
        u_subject := "Notes"; u_date := "Wed, 3 Jan 2024"; u_snippet := "";
        u_body := ""; u_labels := ""; u_category := "";
        u_is_read := Some 1 |}).2 = 2.
Proof.
  destruct (upsert_email_fresh_id Sample.db1 "t1"
              {| u_gmail_id := "m9"; u_thread_id := None; u_history_id := None;
                 u_sender := "zoe@example.org"; u_to_recipients := "";
                 u_subject := "Notes"; u_date := "Wed, 3 Jan 2024"; u_snippet := "";
                 u_body := ""; u_labels := ""; u_category := "";
                 u_is_read := Some 1 |} 1) as (H & _).
  - unfold emails_wf. simpl. split; [apply NoDup_singleton|].
    split; [apply NoDup_singleton|]. repeat constructor. simpl. lia.
  - simpl. intros Hin. apply list_elem_of_singleton in Hin. discriminate Hin.
  - exact H.
Defined.

(** ** Deleting a message *)

Lemma find_filter_out {A} (c p : A → bool) (l : list A) :
  (∀ x, c x = true → p x = false) → List.find c (List.filter p l) = None.
Proof.
  intros Hcp. induction l as [|x l IH]; simpl; [done|].
  destruct (p x) eqn:Hp; simpl; [|exact IH].
  destruct (c x) eqn:Hc; [|exact IH]. apply Hcp in Hc. congruence.
Qed.

(** X6: [delete_email] removes the message together with its
    attachments and its analysis, and nothing else: the rows of other
    messages and the checkpoint are kept; afterwards the message is not
    found and counts as not analysed. *)
Theorem delete_email_cascade d id :
  (∀ r, r ∈ emails (delete_email d id) ↔ r ∈ emails d ∧ e_id r ≠ id)
  ∧ (∀ a, a ∈ attachments (delete_email d id) ↔ a ∈ attachments d ∧ a_email_id a ≠ id)
  ∧ (∀ r, r ∈ email_analysis (delete_email d id)
          ↔ r ∈ email_analysis d ∧ r_email_id r ≠ id)
  ∧ email_exists (delete_email d id) id = false
  ∧ _is_already_analyzed (delete_email d id) id = false
  ∧ _get_existing_analysis (delete_email d id) id = None
  ∧ sync_metadata (delete_email d id) = sync_metadata d.
Proof.
  assert (Hneg : ∀ (x y : Z), negb (bool_decide (x = y)) = true ↔ x ≠ y).
  { intros x y. rewrite negb_true_iff, bool_decide_eq_false. done. }
  unfold delete_email. simpl.
  split; [intros r; rewrite elem_of_List_filter; by rewrite Hneg|].
  split; [intros a; rewrite elem_of_List_filter; by rewrite Hneg|].
  split; [intros r; rewrite elem_of_List_filter; by rewrite Hneg|].
  assert (Hfind : List.find (has_email_id id)
            (List.filter (λ r, negb (bool_decide (r_email_id r = id))) (email_analysis d))
          = None).
  { apply find_filter_out. intros x Hx. unfold has_email_id in Hx. by rewrite Hx. }
  split.
  { unfold email_exists. simpl. apply bool_decide_eq_false.
    intros (r & Hr & Hin)%list_elem_of_fmap.
    apply elem_of_List_filter in Hin as [_ Hne]. apply Hneg in Hne. by apply Hne. }
  unfold _is_already_analyzed, _get_existing_analysis. simpl. rewrite Hfind.
  by repeat split.
Qed.

(** ** Referential integrity *)

Lemma refs_ok_emails_ext d d' :
  (∀ x, x ∈ List.map e_id (emails d) → x ∈ List.map e_id (emails d')) →
  attachments d' = attachments d →
  email_analysis d' = email_analysis d →
  refs_ok d → refs_ok d'.
Proof.
  intros Hsub Ha He [H1 H2]. unfold refs_ok. rewrite Ha, He.
  split; (eapply Forall_impl; [eassumption|]); simpl; intros; by apply Hsub.
Qed.

Lemma insert_attachment_emails d now eid fn c p sz :
  emails (insert_attachment d now eid fn c p sz).1 = emails d
  ∧ email_analysis (insert_attachment d now eid fn c p sz).1 = email_analysis d.
Proof.
  unfold insert_attachment. destruct (List.find _ _); [done|].
  by destruct (email_exists _ _).
Qed.

Lemma insert_attachment_refs_ok d now eid fn c p sz :
  refs_ok d → refs_ok (insert_attachment d now eid fn c p sz).1.
Proof.
  intros [H1 H2]. unfold refs_ok.
  destruct (insert_attachment_emails d now eid fn c p sz) as [-> ->].
  split; [|exact H2].
  unfold insert_attachment. destruct (List.find _ _); simpl.
  - apply Forall_forall. intros r' (r & -> & Hin)%list_elem_of_fmap.
    rewrite Forall_forall in H1. specialize (H1 r Hin).
    by destruct (has_attachment_key _ r).
  - destruct (email_exists d eid) eqn:Hex; simpl; [|exact H1].
    apply Forall_app. split; [exact H1|]. repeat constructor. simpl.
    unfold email_exists in Hex. by apply bool_decide_eq_true in Hex.
Qed.

Lemma upsert_email_ids_incl d now a x :
  x ∈ List.map e_id (emails d) → x ∈ List.map e_id (emails (upsert_email d now a).1).
Proof.
  rewrite upsert_email_ids. destruct (List.find _ _); [done|].
  intros Hx. apply elem_of_app. by left.
Qed.

Lemma upsert_email_other_tables d now a :
  attachments (upsert_email d now a).1 = attachments d
  ∧ email_analysis (upsert_email d now a).1 = email_analysis d.
Proof. unfold upsert_email. by destruct (List.find _ _). Qed.

Lemma upsert_email_refs_ok d now a : refs_ok d → refs_ok (upsert_email d now a).1.
Proof.
  destruct (upsert_email_other_tables d now a) as [Ha He].
  apply refs_ok_emails_ext; [|done|done].
  intros x. apply upsert_email_ids_incl.
Qed.

Lemma _store_analysis_refs_ok d a : refs_ok d → refs_ok (_store_analysis d a).
Proof.
  intros [H1 H2]. unfold _store_analysis.
  destruct (email_exists d (email_id a)) eqn:Hex; [|done].
  split; [exact H1|]. simpl. apply Forall_app. split.
  - apply Forall_forall. intros r [Hr _]%elem_of_List_filter.
    rewrite Forall_forall in H2. by apply H2.
  - repeat constructor. simpl.
    unfold email_exists in Hex. by apply bool_decide_eq_true in Hex.
Qed.

Lemma _mark_email_analyzed_ids d id :
  List.map e_id (emails (_mark_email_analyzed d id)) = List.map e_id (emails d).
Proof. unfold _mark_email_analyzed. simpl. by apply map_proj_update. Qed.

(** X7: every attachment and every analysis belongs to a stored
    message; this holds in the empty store and is kept by
    [upsert_email], [insert_attachment], [_store_analysis],
    [_mark_email_analyzed], [mark_email_as_read] and [delete_email]. *)
Theorem refs_ok_preserved d now a eid filename content preview size analysis id read :
  refs_ok d →
  refs_ok empty_db
  ∧ refs_ok (upsert_email d now a).1
  ∧ refs_ok (insert_attachment d now eid filename content preview size).1
  ∧ refs_ok (_store_analysis d analysis)
  ∧ refs_ok (_mark_email_analyzed d id)
  ∧ refs_ok (mark_email_as_read d now id read)
  ∧ refs_ok (delete_email d id).
Proof.
  intros Hok.
  split; [split; constructor|].
  split; [by apply upsert_email_refs_ok|].
  split; [by apply insert_attachment_refs_ok|].
  split; [by apply _store_analysis_refs_ok|].
  split.
  { revert Hok. apply refs_ok_emails_ext; [|done|done].
    intros x. by rewrite _mark_email_analyzed_ids. }
  split.
  { revert Hok. apply refs_ok_emails_ext; [|done|done].
    intros x. unfold mark_email_as_read. simpl. by rewrite map_proj_update. }
  destruct Hok as [H1 H2].
  assert (Hkeep : ∀ x, x ∈ List.map e_id (emails d) → x ≠ id →
            x ∈ List.map e_id (emails (delete_email d id))).
  { intros x (r & -> & Hin)%list_elem_of_fmap Hne.
    apply list_elem_of_fmap_2. unfold delete_email. simpl.
    apply elem_of_List_filter. split; [done|].
    by rewrite negb_true_iff, bool_decide_eq_false. }
  split; apply Forall_forall.
  - intros r [Hr Hne]%elem_of_List_filter.
    rewrite negb_true_iff, bool_decide_eq_false in Hne.
    rewrite Forall_forall in H1. by apply Hkeep; [apply H1|].
  - intros r [Hr Hne]%elem_of_List_filter.
    rewrite negb_true_iff, bool_decide_eq_false in Hne.
    rewrite Forall_forall in H2. by apply Hkeep; [apply H2|].
Qed.

Lemma refs_ok_preserved_witness :
  refs_ok (delete_email SampleAttachment.db2 1)
  ∧ attachments (delete_email SampleAttachment.db2 1) = [].
Proof.
  destruct (refs_ok_preserved SampleAttachment.db2 "t1"
              {| u_gmail_id := "m1"; u_thread_id := None; u_history_id := None;
                 u_sender := ""; u_to_recipients := ""; u_subject := ""; u_date := "";
                 u_snippet := ""; u_body := ""; u_labels := ""; u_category := "";
                 u_is_read := None |}
              1 "report.pdf" None None None
              (analysis_of Sample.row1 _get_fallback_analysis "t1" 0) 1 true)
    as (_ & _ & _ & _ & _ & _ & H).
  - split; simpl; repeat constructor.
  - split; [exact H|reflexivity].
Defined.

(** ** Read flag and unread count *)

Lemma get_unread_count_filter d category :
  get_unread_count d category
  = length (List.filter (λ r, (e_is_read r =? 0) && in_category category r) (emails d)).
Proof.
  unfold get_unread_count, in_category. destruct (truthy category); [done|].
  f_equal. apply filter_ext. intros r. by rewrite andb_true_r.
Qed.

Lemma update_by_id_absent (g : email_row → email_row) (id : Z) (rows : list email_row) :
  id ∉ List.map e_id rows →
  List.map (λ r, if bool_decide (e_id r = id) then g r else r) rows = rows.
Proof.
  induction rows as [|r rows IH]; simpl; [done|].
  intros Hnin. apply not_elem_of_cons in Hnin as [Hne Hnin].
  rewrite bool_decide_eq_false_2 by done. by rewrite IH.
Qed.

Lemma count_after_update_by_id (g : email_row → email_row) (p : email_row → bool)
    (id : Z) (row : email_row) (rows : list email_row) :
  NoDup (List.map e_id rows) → row ∈ rows → e_id row = id →
  (length (List.filter p (List.map (λ r, if bool_decide (e_id r = id) then g r else r) rows))
   + (if p row then 1 else 0)
   = length (List.filter p rows) + (if p (g row) then 1 else 0))%nat.
Proof.
  intros Hnd Hin Hid.
  induction rows as [|r rows IH]; [by apply elem_of_nil in Hin|].
  simpl in Hnd. apply NoDup_cons in Hnd as [Hnin Hnd].
  apply elem_of_cons in Hin as [<-|Hin].
  - simpl. rewrite bool_decide_eq_true_2 by done. subst id.
    rewrite update_by_id_absent by done.
    destruct (p row); destruct (p (g row)); simpl; lia.
  - assert (Hne : e_id r ≠ id).
    { intros Heq. apply Hnin. rewrite Heq, <- Hid. by apply list_elem_of_fmap_2. }
    specialize (IH Hnd Hin).
    simpl. rewrite bool_decide_eq_false_2 by done.
    destruct (p r); simpl; lia.
Qed.

(** X8: with unique ids, marking a stored message as read lowers the
    unread count of its category (and the overall count) by one when it
    was unread and leaves it alone otherwise; marking it as unread raises
    the count by one when it was read. *)
Theorem mark_email_as_read_unread_count d now id row category :
  NoDup (List.map e_id (emails d)) →
  row ∈ emails d →
  e_id row = id →
  (get_unread_count (mark_email_as_read d now id true) category
   + (if (e_is_read row =? 0)%Z && in_category category row then 1 else 0)
   = get_unread_count d category)%nat
  ∧ (get_unread_count (mark_email_as_read d now id false) category
     = get_unread_count d category
       + (if negb (e_is_read row =? 0)%Z && in_category category row then 1 else 0))%nat.
Proof.
  intros Hnd Hin Hid.
  rewrite !get_unread_count_filter. unfold mark_email_as_read.
  cbn [emails set_emails].
  split.
  - match goal with
    | |- context [List.map (λ r, if _ then @?g r else r) _] =>
        pose proof (count_after_update_by_id g
          (λ r, (e_is_read r =? 0) && in_category category r) id row (emails d)
          Hnd Hin Hid) as H
    end.
    cbn beta in H. cbn [e_is_read] in H.
    change (1 =? 0) with false in H. cbn [andb] in H. lia.
  - match goal with
    | |- context [List.map (λ r, if _ then @?g r else r) _] =>
        pose proof (count_after_update_by_id g
          (λ r, (e_is_read r =? 0) && in_category category r) id row (emails d)
          Hnd Hin Hid) as H
    end.
    cbn beta in H. cbn [e_is_read] in H.
    change (0 =? 0) with true in H. cbn [andb] in H.
    assert (Hcat : ∀ u v a,
      in_category category
        {| e_id := e_id row; e_gmail_id := e_gmail_id row; e_thread_id := e_thread_id row;
           e_history_id := e_history_id row; e_sender := e_sender row;
           e_to_recipients := e_to_recipients row; e_subject := e_subject row;
           e_date := e_date row; e_snippet := e_snippet row; e_body := e_body row;
           e_labels := e_labels row; e_category := e_category row;
           e_created_at := e_created_at row; e_updated_at := u;
           e_is_read := v; e_ai_analyzed := a |}
      = in_category category row).
    { intros u v a. unfold in_category. by destruct (truthy category). }
    rewrite Hcat in H.
    destruct (e_is_read row =? 0); destruct (in_category category row);
      cbn [andb negb] in *; lia.
Qed.

Lemma mark_email_as_read_unread_count_witness :
  get_unread_count (mark_email_as_read Sample.db1 "t1" 1 false) None = 1%nat.
Proof.
  destruct (mark_email_as_read_unread_count Sample.db1 "t1" 1 Sample.row1 None)
    as [_ H].
  - simpl. apply NoDup_singleton.
  - simpl. apply list_elem_of_singleton. reflexivity.
  - reflexivity.
  - exact H.
Defined.

(** ** Attachment insert and lookup *)

Lemma find_attachment_update k p c rows :
  List.find (has_attachment_key k)
    (List.map (λ r, if has_attachment_key k r then do_update_attachment p c r else r) rows)
  = do_update_attachment p c <$> List.find (has_attachment_key k) rows.
Proof. by apply find_map_update. Qed.

(** X9: [insert_attachment] fails only when the key is new and the
    message is not stored, and then writes nothing.  Otherwise the row
    found under the key (message id, filename or "unknown", size or the
    content length) has the returned id, and its preview is the one
    passed in, or the empty string when none is passed, whatever preview
    was stored before. *)
Theorem insert_attachment_lookup d now eid filename content content_preview size :
  let r := insert_attachment d now eid filename content content_preview size in
  let key := (eid, str_or filename "unknown", attachment_size size content) in
  (r.2 = None ↔ List.find (has_attachment_key key) (attachments d) = None
                ∧ email_exists d eid = false)
  ∧ (r.2 = None → r.1 = d)
  ∧ (∀ id, r.2 = Some id →
       ∃ row, List.find (has_attachment_key key) (attachments r.1) = Some row
              ∧ a_id row = id
              ∧ attachment_key row = key
              ∧ a_content_preview row = Some (default "" content_preview)).
Proof.
  cbv zeta. unfold insert_attachment.
  set (key := (eid, str_or filename "unknown", attachment_size size content)).
  destruct (List.find (has_attachment_key key) (attachments d)) as [old|] eqn:Hfind.
  - simpl. split; [split; [done|intros [? _]; done]|]. split; [done|].
    intros id [= <-]. rewrite find_attachment_update, Hfind. simpl.
    eexists. split; [reflexivity|]. split; [done|].
    apply find_some in Hfind as [_ Hk]. unfold has_attachment_key in Hk.
    apply bool_decide_eq_true in Hk. by split.
  - destruct (email_exists d eid) eqn:Hex; simpl.
    + split; [split; [done|intros [_ ?]; done]|]. split; [done|].
      intros id [= <-]. rewrite find_app_None by done.
      unfold has_attachment_key at 1. simpl. rewrite bool_decide_eq_true_2 by done.
      eexists. split; [reflexivity|]. by repeat split.
    + split; [done|]. split; [done|]. intros id Hid. discriminate Hid.
Qed.

(** ** Pagination *)

Lemma insert_date_desc_perm r l : insert_date_desc r l ≡ₚ r :: l.
Proof.
  induction l as [|x l IH]; simpl; [done|].
  destruct (String.ltb _ _); [|done].
  rewrite IH. apply Permutation_swap.
Qed.

Lemma order_by_date_desc_perm l : order_by_date_desc l ≡ₚ l.
Proof.
  induction l as [|x l IH]; simpl; [done|].
  rewrite insert_date_desc_perm. by rewrite IH.
Qed.

Lemma ltb_asym s1 s2 : String.ltb s1 s2 = true → String.ltb s2 s1 = false.
Proof.
  unfold String.ltb. rewrite (String.compare_antisym s2 s1).
  by destruct (String.compare s1 s2).
Qed.

Lemma insert_date_desc_sorted r l :
  Sorted date_desc l → Sorted date_desc (insert_date_desc r l).
Proof.
  induction l as [|x l IH]; simpl; intros Hs.
  - repeat constructor.
  - destruct (String.ltb (e_date r) (e_date x)) eqn:Hlt.
    + apply Sorted_inv in Hs as [Hs Hhd]. constructor; [by apply IH|].
      destruct l as [|y l]; simpl.
      * constructor. by apply ltb_asym.
      * destruct (String.ltb (e_date r) (e_date y)).
        -- constructor. by apply HdRel_inv in Hhd.
        -- constructor. by apply ltb_asym.
    + constructor; [done|]. by constructor.
Qed.

Lemma order_by_date_desc_sorted l : Sorted date_desc (order_by_date_desc l).
Proof.
  induction l as [|x l IH]; simpl; [constructor|]. by apply insert_date_desc_sorted.
Qed.

Lemma Sorted_skipn {A} (R : A → A → Prop) n (l : list A) :
  Sorted R l → Sorted R (skipn n l).
Proof.
  revert l. induction n as [|n IH]; intros [|x l] Hs; simpl; try done.
  apply IH. by apply Sorted_inv in Hs as [Hs _].
Qed.

Lemma Sorted_firstn {A} (R : A → A → Prop) n (l : list A) :
  Sorted R l → Sorted R (firstn n l).
Proof.
  revert l. induction n as [|n IH]; intros [|x l] Hs; simpl; try constructor.
  - apply IH. by apply Sorted_inv in Hs as [Hs _].
  - apply Sorted_inv in Hs as [_ Hhd].
    destruct n, l; simpl; constructor. by apply HdRel_inv in Hhd.
Qed.

Lemma sql_limit_sublist {A} n (l : list A) (x : A) : x ∈ sql_limit n l → x ∈ l.
Proof.
  unfold sql_limit. destruct (n <? 0); [done|]. apply subseteq_take.
Qed.

Lemma sql_offset_sublist {A} n (l : list A) (x : A) : x ∈ sql_offset n l → x ∈ l.
Proof.
  unfold sql_offset. apply subseteq_drop.
Qed.

(** X10: a page of [get_emails_paginated] holds only stored rows that
    pass every filter, no more than [page_size] of them when that is not
    negative and never more than the total, in non-increasing date
    order; the total is the number of matching rows whatever the page;
    and a page number below 1 gives the first page. *)
Theorem get_emails_paginated_page d page page_size f :
  let r := get_emails_paginated d page page_size f in
  r.2 = length (List.filter (where_clause (truthy (f_category f)) f) (emails d))
  ∧ (∀ row, row ∈ r.1 →
       row ∈ emails d ∧ where_clause (truthy (f_category f)) f row = true)
  ∧ (0 ≤ page_size → (length r.1 <= Z.to_nat page_size)%nat)
  ∧ (length r.1 <= r.2)%nat
  ∧ Sorted date_desc r.1
  ∧ (page ≤ 1 → 0 ≤ page_size → r = get_emails_paginated d 1 page_size f).
Proof.
  cbv zeta. unfold get_emails_paginated. cbn [fst snd].
  set (matching := List.filter _ (emails d)).
  split; [done|].
  split.
  { intros row Hin. apply sql_limit_sublist, sql_offset_sublist in Hin.
    rewrite order_by_date_desc_perm in Hin. by apply elem_of_List_filter in Hin. }
  split.
  { intros Hps. unfold sql_limit. rewrite (proj2 (Z.ltb_ge _ _)) by done.
    rewrite length_firstn. lia. }
  split.
  { rewrite <- (Permutation_length (order_by_date_desc_perm matching)).
    unfold sql_limit, sql_offset.
    destruct (page_size <? 0); rewrite ?length_firstn, length_skipn; lia. }
  split.
  { unfold sql_limit, sql_offset.
    destruct (page_size <? 0); [|apply Sorted_firstn];
      apply Sorted_skipn, order_by_date_desc_sorted. }
  intros Hp Hps. do 3 f_equal. nia.
Qed.

Lemma pages_upto_firstn d page_size f n :
  0 < page_size →
  pages_upto d page_size f n
  = firstn (n * Z.to_nat page_size)
      (order_by_date_desc (List.filter (where_clause (truthy (f_category f)) f) (emails d))).
Proof.
  intros Hps. unfold pages_upto. induction n as [|n IH]; [done|].
  rewrite seq_S, map_app, concat_app, IH. simpl. rewrite app_nil_r.
  unfold get_emails_paginated, sql_limit, sql_offset. cbn [fst].
  rewrite (proj2 (Z.ltb_ge _ _)) by lia.
  replace (Z.to_nat (Z.max 0 ((Z.of_nat (S n) - 1) * page_size)))
    with (n * Z.to_nat page_size)%nat by nia.
  rewrite take_take_drop. f_equal. lia.
Qed.

(** X11: with a positive page size the pages follow one another without
    gap or overlap: pages 1 to [n] together are the first [n * page_size]
    rows of the ordered result, and once [n * page_size] reaches the
    total they hold every matching row exactly once. *)
Theorem get_emails_paginated_cover d page_size f n :
  0 < page_size →
  pages_upto d page_size f n
  = firstn (n * Z.to_nat page_size)
      (order_by_date_desc (List.filter (where_clause (truthy (f_category f)) f) (emails d)))
  ∧ ((get_emails_paginated d 1 page_size f).2 <= n * Z.to_nat page_size →
     pages_upto d page_size f n
     ≡ₚ List.filter (where_clause (truthy (f_category f)) f) (emails d))%nat.
Proof.
  intros Hps. split; [by apply pages_upto_firstn|].
  intros Htotal. rewrite pages_upto_firstn by done.
  rewrite take_ge; [apply order_by_date_desc_perm|].
  rewrite (Permutation_length (order_by_date_desc_perm _)). exact Htotal.
Qed.

Lemma get_emails_paginated_cover_witness :
  pages_upto Sample.db1 1 no_filter 2 ≡ₚ emails Sample.db1.
Proof.
  destruct (get_emails_paginated_cover Sample.db1 1 no_filter 2) as [_ H]; [lia|].
  apply H. vm_compute. lia.
Defined.

(** X12: the two counts agree except on the category "All".  For any
    other category argument the total of [get_emails_paginated] equals
    [get_total_email_count]; for "All" the count ignores the category
    while the page query looks for rows whose category is literally
    "All" and finds none when no row has it. *)
Theorem email_counts_agree d page page_size f :
  (f_category f ≠ Some "All" →
     (get_emails_paginated d page page_size f).2 = get_total_email_count d f)
  ∧ (f_category f = Some "All" →
       get_total_email_count d f = get_total_email_count d (without_category f)
       ∧ (Forall (λ r, e_category r ≠ "All") (emails d) →
          get_emails_paginated d page page_size f = ([], 0%nat))).
Proof.
  split.
  - intros Hne. unfold get_emails_paginated, get_total_email_count. cbn [snd].
    f_equal. f_equal. unfold category_not_all.
    destruct (f_category f) as [c|]; simpl; [|done].
    case_decide; [done|]. simpl. case_decide; [|done]. by subst.
  - intros Hall. split.
    + unfold get_total_email_count, without_category. rewrite Hall. simpl. done.
    + intros Hno. unfold get_emails_paginated. rewrite Hall. simpl.
      assert (Hnil : List.filter (where_clause (Some "All") f) (emails d) = []).
      { induction Hno as [|r rows Hr _ IH]; simpl; [done|].
        unfold where_clause at 1. rewrite bool_decide_eq_false_2 by done. simpl.
        exact IH. }
      rewrite Hnil. simpl. unfold sql_limit, sql_offset.
      rewrite drop_nil. destruct (page_size <? 0); [done|]. by rewrite take_nil.
Qed.

(** ** LIKE filters *)

Lemma sql_like_percent p s :
  sql_like (String "%" p) s
  = sql_like p s || match s with
                    | EmptyString => false
                    | String _ s' => sql_like (String "%" p) s'
                    end.
Proof. destruct s; reflexivity. Qed.

Lemma sql_like_percent_all s : sql_like "%" s = true.
Proof.
  induction s as [|c s IH]; [reflexivity|].
  rewrite sql_like_percent. rewrite IH. apply orb_true_r.
Qed.

Lemma sql_like_same_letters x y post :
  PyStr.lower x = PyStr.lower y → sql_like (x ++ "%") (y ++ post) = true.
Proof.
  revert y. induction x as [|p x IH]; intros [|c y] Hl; try discriminate Hl.
  - simpl String.append. apply sql_like_percent_all.
  - simpl in Hl. injection Hl as Hc Hl. specialize (IH y Hl).
    destruct (Ascii.eqb p "%") eqn:Hp.
    + apply Ascii.eqb_eq in Hp. subst p.
      change (String "%" x ++ "%") with (String "%" (x ++ "%")).
      rewrite sql_like_percent.
      change (String c y ++ post) with (String c (y ++ post)). cbv iota.
      rewrite (sql_like_percent (x ++ "%") (y ++ post)). rewrite IH.
      apply orb_true_r.
    + simpl. rewrite Hp. rewrite Hc, Ascii.eqb_refl, orb_true_r. exact IH.
Qed.

Lemma sql_like_skip p pre s :
  sql_like (String "%" p) s = true → sql_like (String "%" p) (pre ++ s) = true.
Proof.
  intros H. induction pre as [|c pre IH]; [exact H|].
  change (String c pre ++ s) with (String c (pre ++ s)).
  rewrite sql_like_percent, IH. apply orb_true_r.
Qed.

(** X13: a sender or subject filter finds every row whose field contains
    the filter text, in any letter case: the pattern [%text%] matches any
    string made of a prefix, a text with the same letters up to case, and
    a suffix. *)
Theorem sql_like_contains text pre found post :
  PyStr.lower text = PyStr.lower found →
  sql_like (contains_pattern text) (pre ++ found ++ post) = true.
Proof.
  intros Hl. unfold contains_pattern.
  change ("%" ++ text ++ "%") with (String "%" (text ++ "%")).
  apply sql_like_skip. rewrite sql_like_percent.
  by rewrite sql_like_same_letters.
Qed.

Lemma sql_like_contains_witness :
  sql_like (contains_pattern "Ann") ("from " ++ "aNN" ++ "@example.org") = true.
Proof. apply (sql_like_contains "Ann" "from " "aNN" "@example.org"). reflexivity. Defined.

(** ** Whitespace normalisation *)

Lemma append_cons c (a b : string) : String c a ++ b = String c (a ++ b).
Proof. reflexivity. Qed.

Lemma append_empty_r (s : string) : s ++ "" = s.
Proof. induction s as [|c s IH]; [done|]. by rewrite append_cons, IH. Qed.



Lemma append_nonempty_r (a : string) c : a ++ String c "" ≠ "".
Proof. by destruct a. Qed.






(** ** Page fetch, continued *)

Lemma store_attachments_emails d now eid atts :
  emails (store_attachments d now eid atts) = emails d
  ∧ emails_seq (store_attachments d now eid atts) = emails_seq d
  ∧ email_analysis (store_attachments d now eid atts) = email_analysis d.
Proof.
  revert d. induction atts as [|att rest IH]; intros d; simpl; [done|].
  destruct (insert_attachment _ _ _ _ _ _ _) as [d' r] eqn:Hins.
  destruct (IH d') as (-> & -> & ->).
  assert (Hd' : d' = (insert_attachment d now eid (att_filename att) (att_content att)
                        (att_content_preview att) (Some (att_size att))).1)
    by by rewrite Hins.
  rewrite Hd'. unfold insert_attachment.
  destruct (List.find _ _); [done|]. by destruct (email_exists _ _).
Qed.

Lemma store_attachments_refs_ok d now eid atts :
  refs_ok d → refs_ok (store_attachments d now eid atts).
Proof.
  revert d. induction atts as [|att rest IH]; intros d Hok; simpl; [done|].
  destruct (insert_attachment _ _ _ _ _ _ _) as [d' r] eqn:Hins.
  apply IH. change d' with (d', r).1. rewrite <- Hins.
  by apply insert_attachment_refs_ok.
Qed.

(** What [_process_email] does to the store and the request log. *)
Lemma _process_email_spec mb now st g :
  let r := _process_email mb now st g in
  st_fetched r.1 = (st_fetched st ++ [g])%list
  ∧ match get_message mb g with
    | None => r.2 = None ∧ st_db r.1 = st_db st
    | Some m =>
        ∃ a e, r.2 = Some e
          ∧ u_gmail_id a = g
          ∧ ed_gmail_id e = g
          ∧ ed_id e = (upsert_email (st_db st) now a).2
          ∧ st_db r.1 = store_attachments (upsert_email (st_db st) now a).1 now
                          (upsert_email (st_db st) now a).2 (m_attachments m)
    end.
Proof.
  cbv zeta. unfold _process_email. destruct (get_message mb g) as [m|]; [|done].
  destruct (upsert_email _ _ _) as [d1 id] eqn:Hup. simpl. split; [done|].
  eexists _, _. split; [reflexivity|]. rewrite Hup. simpl. done.
Qed.

Lemma batch_loop_result mb now ids messages st emails skipped :
  let r := batch_loop mb now ids messages st emails skipped in
  List.map ed_gmail_id r.1.2
  = (List.map ed_gmail_id emails ++ fetched_ok mb ids messages)%list
  ∧ r.2 = (skipped + length (List.filter (λ g, bool_decide (g ∈ ids)) messages))%nat
  ∧ st_fetched r.1.1 = (st_fetched st ++ to_fetch ids messages)%list.
Proof.
  cbv zeta. revert st emails skipped.
  induction messages as [|g rest IH]; intros st emails skipped; simpl.
  - by rewrite !app_nil_r, Nat.add_0_r.
  - destruct (decide (g ∈ ids)) as [Hin|Hnin].
    + unfold fetched_ok, to_fetch. simpl. rewrite bool_decide_eq_true_2 by done. simpl.
      destruct (IH st emails (S skipped)) as (-> & -> & ->).
      repeat split. lia.
    + unfold fetched_ok, to_fetch. simpl. rewrite bool_decide_eq_false_2 by done. simpl.
      pose proof (_process_email_spec mb now st g) as [Hf Hres]. cbv zeta in Hf.
      destruct (_process_email mb now st g) as [st' e]. simpl in *.
      destruct (get_message mb g) as [m|].
      * destruct Hres as (a & e' & -> & _ & Hg & _).
        destruct (IH st' (emails ++ [e'])%list skipped) as (-> & -> & ->).
        rewrite Hf, map_app. simpl. rewrite Hg, <- !app_assoc. done.
      * destruct Hres as [-> _].
        destruct (IH st' emails skipped) as (-> & -> & ->).
        rewrite Hf, <- !app_assoc. done.
Qed.

Lemma fetched_skipped_le mb (ids : gset string) (l : list string) :
  (length (fetched_ok mb ids l)
   + (0 + length (List.filter (λ g, bool_decide (g ∈ ids)) l)) <= length l)%nat.
Proof.
  unfold fetched_ok. induction l as [|x l IH]; simpl; [lia|].
  destruct (bool_decide (x ∈ ids)); simpl.
  - lia.
  - destruct (get_message mb x); simpl; lia.
Qed.

(** X15: on a listed page, [fetch_email_batch] requests the content of
    exactly the listed ids that were not stored when the page began, in
    order, returns those of them the provider answered, and counts the
    others as skipped; returned and skipped together never exceed the
    listed messages. *)
Theorem fetch_email_batch_accounting mb now st page_token batch_size messages next :
  list_messages mb (usable_token page_token) batch_size = Listed messages next →
  let ids := existing_gmail_ids (st_db st) in
  let r := fetch_email_batch mb now st page_token batch_size in
  List.map ed_gmail_id (b_emails r.2) = fetched_ok mb ids messages
  ∧ st_fetched r.1 = (st_fetched st ++ to_fetch ids messages)%list
  ∧ b_skipped_count r.2 = length (List.filter (λ g, bool_decide (g ∈ ids)) messages)
  ∧ b_next_page_token r.2 = next
  ∧ (length (b_emails r.2) + b_skipped_count r.2 <= length messages)%nat.
Proof.
  intros Hlist. cbv zeta. unfold fetch_email_batch. rewrite Hlist.
  destruct messages as [|g rest]; [simpl; by rewrite app_nil_r|].
  pose proof (batch_loop_result mb now (existing_gmail_ids (st_db st)) (g :: rest) st [] 0)
    as (He & Hs & Hf).
  destruct (batch_loop _ _ _ _ _ _ _) as [[st' es] sk]. cbn [fst snd] in *.
  cbn [b_emails b_skipped_count b_next_page_token].
  change (List.map ed_gmail_id [] ++ ?x)%list with x in He.
  split; [exact He|]. split; [exact Hf|]. split; [exact Hs|].
  split; [done|].
  rewrite <- (length_map ed_gmail_id es), He, Hs. apply fetched_skipped_le.
Qed.

Lemma fetch_email_batch_accounting_witness :
  let r := fetch_email_batch Sample.one_new "t1" Sample.st1 None 50 in
  List.map ed_gmail_id (b_emails r.2) = ["m2"] ∧ st_fetched r.1 = ["m2"].
Proof.
  destruct (fetch_email_batch_accounting Sample.one_new "t1" Sample.st1 None 50
              ["m2"] None) as (H1 & H2 & _); [reflexivity|].
  split; [exact H1|exact H2].
Defined.

Lemma upsert_email_identities d now a :
  ∃ added, List.map email_identity (emails (upsert_email d now a).1)
           = (List.map email_identity (emails d) ++ added)%list
  ∧ ((upsert_email d now a).2, u_gmail_id a)
    ∈ List.map email_identity (emails (upsert_email d now a).1).
Proof.
  unfold upsert_email. destruct (List.find _ (emails d)) as [old|] eqn:Hfind; simpl.
  - exists []. rewrite app_nil_r. rewrite map_proj_update by done. split; [done|].
    apply find_some in Hfind as [Hin Hg]. unfold has_gmail_id in Hg.
    apply bool_decide_eq_true in Hg. rewrite <- Hg.
    apply (list_elem_of_fmap_2 email_identity). by apply list_elem_of_In.
  - eexists. rewrite map_app. split; [reflexivity|].
    apply elem_of_app. right. simpl. apply list_elem_of_singleton. done.
Qed.

Lemma upsert_email_prefix d now a kept rest :
  emails d = (kept ++ rest)%list →
  u_gmail_id a ∉ List.map e_gmail_id kept →
  ∃ rest', emails (upsert_email d now a).1 = (kept ++ rest')%list.
Proof.
  intros Hd Hnin. unfold upsert_email. destruct (List.find _ (emails d)); simpl.
  - rewrite Hd, map_app. eexists. f_equal.
    clear Hd. induction kept as [|r kept IH]; simpl; [done|].
    simpl in Hnin. apply not_elem_of_cons in Hnin as [Hne Hnin].
    unfold has_gmail_id at 1. rewrite bool_decide_eq_false_2 by done.
    by rewrite IH.
  - rewrite Hd, <- app_assoc. by eexists.
Qed.

Lemma emails_wf_ext d d' :
  emails d' = emails d → emails_seq d' = emails_seq d → emails_wf d → emails_wf d'.
Proof. unfold emails_wf. by intros -> ->. Qed.

(** The effect of one fetched message on the store. *)
Lemma _process_email_store mb now st g kept :
  g ∉ List.map e_gmail_id kept →
  let r := _process_email mb now st g in
  ((∃ rest, emails (st_db st) = (kept ++ rest)%list) →
   ∃ rest', emails (st_db r.1) = (kept ++ rest')%list)
  ∧ (emails_wf (st_db st) → emails_wf (st_db r.1))
  ∧ (refs_ok (st_db st) → refs_ok (st_db r.1))
  ∧ email_analysis (st_db r.1) = email_analysis (st_db st)
  ∧ (∃ added, List.map email_identity (emails (st_db r.1))
              = (List.map email_identity (emails (st_db st)) ++ added)%list)
  ∧ (∀ e, r.2 = Some e →
       (ed_id e, ed_gmail_id e) ∈ List.map email_identity (emails (st_db r.1))).
Proof.
  intros Hnin. cbv zeta.
  pose proof (_process_email_spec mb now st g) as [_ Hres].
  destruct (get_message mb g) as [m|].
  - destruct Hres as (a & e & He & Ha & Hg & Hid & Hdb).
    rewrite Hdb, He.
    destruct (store_attachments_emails (upsert_email (st_db st) now a).1 now
                (upsert_email (st_db st) now a).2 (m_attachments m)) as (Hem & Hseq & Han).
    rewrite Hem, Han.
    split.
    { intros [rest Hrest]. eapply upsert_email_prefix; [exact Hrest|]. by rewrite Ha. }
    split.
    { intros Hwf. eapply emails_wf_ext; [exact Hem|exact Hseq|]. by apply upsert_email_wf. }
    split.
    { intros Hok. by apply store_attachments_refs_ok, upsert_email_refs_ok. }
    split; [apply upsert_email_other_tables|].
    destruct (upsert_email_identities (st_db st) now a) as (added & Hadd & Hin).
    split; [by exists added|].
    intros e' [= <-]. by rewrite Hid, Hg, <- Ha.
  - destruct Hres as [-> ->].
    split; [done|]. split; [done|]. split; [done|]. split; [done|].
    split; [exists []; by rewrite app_nil_r|]. intros e He. discriminate He.
Qed.

Lemma batch_loop_store mb now kept messages st acc skipped :
  let ids : gset string := list_to_set (List.map e_gmail_id kept) in
  let r := batch_loop mb now ids messages st acc skipped in
  ((∃ rest, emails (st_db st) = (kept ++ rest)%list) →
   ∃ rest', emails (st_db r.1.1) = (kept ++ rest')%list)
  ∧ (emails_wf (st_db st) → emails_wf (st_db r.1.1))
  ∧ (refs_ok (st_db st) → refs_ok (st_db r.1.1))
  ∧ email_analysis (st_db r.1.1) = email_analysis (st_db st)
  ∧ (Forall (λ e, (ed_id e, ed_gmail_id e)
                  ∈ List.map email_identity (emails (st_db st))) acc →
     Forall (λ e, (ed_id e, ed_gmail_id e)
                  ∈ List.map email_identity (emails (st_db r.1.1))) r.1.2).
Proof.
  cbv zeta. revert st acc skipped.
  induction messages as [|g rest IH]; intros st acc skipped; simpl; [done|].
  destruct (decide (g ∈ _)) as [Hin|Hnin]; [apply IH|].
  rewrite elem_of_list_to_set in Hnin.
  pose proof (_process_email_store mb now st g kept Hnin)
    as (Hp & Hwf & Hok & Han & (added & Hadd) & Hret).
  destruct (_process_email mb now st g) as [st' e]. cbn [fst snd] in *.
  assert (Hmono : ∀ acc',
    Forall (λ e, (ed_id e, ed_gmail_id e)
                 ∈ List.map email_identity (emails (st_db st))) acc' →
    Forall (λ e, (ed_id e, ed_gmail_id e)
                 ∈ List.map email_identity (emails (st_db st'))) acc').
  { intros acc' Hacc. eapply Forall_impl; [exact Hacc|]. simpl.
    intros x Hx. rewrite Hadd. apply elem_of_app. by left. }
  destruct e as [e|].
  - destruct (IH st' (acc ++ [e])%list skipped) as (IH1 & IH2 & IH3 & IH4 & IH5).
    split; [intros H; by apply IH1, Hp|]. split; [intros H; by apply IH2, Hwf|].
    split; [intros H; by apply IH3, Hok|]. split; [by rewrite IH4|].
    intros Hacc. apply IH5. apply Forall_app. split; [by apply Hmono|].
    repeat constructor. by apply Hret.
  - destruct (IH st' acc skipped) as (IH1 & IH2 & IH3 & IH4 & IH5).
    split; [intros H; by apply IH1, Hp|]. split; [intros H; by apply IH2, Hwf|].
    split; [intros H; by apply IH3, Hok|]. split; [by rewrite IH4|].
    intros Hacc. by apply IH5, Hmono.
Qed.

(** X16: a page fetch only adds to the [emails] table: the rows stored
    before are all still there, in place and unchanged, whatever the
    provider lists.  It keeps the uniqueness of ids and provider ids and
    the referential integrity, leaves the analyses and the checkpoint
    alone, and every message it returns is stored under the returned id
    and provider id. *)
Theorem fetch_email_batch_store mb now st page_token batch_size :
  let r := fetch_email_batch mb now st page_token batch_size in
  (∃ added, emails (st_db r.1) = (emails (st_db st) ++ added)%list)
  ∧ (emails_wf (st_db st) → emails_wf (st_db r.1))
  ∧ (refs_ok (st_db st) → refs_ok (st_db r.1))
  ∧ email_analysis (st_db r.1) = email_analysis (st_db st)
  ∧ sync_metadata (st_db r.1) = sync_metadata (st_db st)
  ∧ Forall (λ e, (ed_id e, ed_gmail_id e)
                 ∈ List.map email_identity (emails (st_db r.1))) (b_emails r.2).
Proof.
  cbv zeta.
  pose proof (fetch_email_batch_sync_metadata mb now st page_token batch_size) as Hmeta.
  unfold fetch_email_batch in *.
  destruct (list_messages _ _ _) as [|messages next].
  { cbn [fst snd b_emails]. split; [exists []; by rewrite app_nil_r|].
    do 4 (split; [done|]). constructor. }
  destruct messages as [|g rest].
  { cbn [fst snd b_emails]. split; [exists []; by rewrite app_nil_r|].
    do 4 (split; [done|]). constructor. }
  pose proof (batch_loop_store mb now (emails (st_db st)) (g :: rest) st [] 0)
    as (Hp & Hwf & Hok & Han & Hret).
  unfold existing_gmail_ids in *.
  destruct (batch_loop _ _ _ _ _ _ _) as [[st' es] sk]. cbn [fst snd] in *.
  cbn [b_emails].
  split; [apply Hp; exists []; by rewrite app_nil_r|].
  split; [exact Hwf|]. split; [exact Hok|]. split; [exact Han|].
  split; [exact Hmeta|]. apply Hret. constructor.
Qed.

(** ** Full-sync driver, continued *)

Lemma fetch_email_batch_all_existing mb now st page_token batch_size messages next :
  list_messages mb (usable_token page_token) batch_size = Listed messages next →
  Forall (λ g, g ∈ List.map e_gmail_id (emails (st_db st))) messages →
  fetch_email_batch mb now st page_token batch_size
  = (st, {| b_emails := []; b_next_page_token := next;
            b_skipped_count := length messages |}).
Proof.
  intros Hlist Hall. unfold fetch_email_batch. rewrite Hlist.
  destruct messages as [|g rest]; [done|].
  rewrite batch_loop_all_existing; [done|].
  eapply Forall_impl; [exact Hall|].
  intros x Hx. by apply elem_of_existing_gmail_ids.
Qed.

Lemma usable_token_start (t : option string) :
  usable_token
    match t with
    | Some t => if negb (bool_decide (t = "")) && bool_decide (PyStr.strip t = "")
                then None else Some t
    | None => None
    end
  = usable_token t.
Proof.
  destruct t as [t|]; [|done]. unfold usable_token.
  destruct (decide (t = "")) as [->|Hne].
  - simpl. done.
  - rewrite (bool_decide_eq_false_2 (t = "")) by done. simpl.
    case_bool_decide as Hs; simpl.
    + by rewrite decide_True.
    + rewrite decide_False by done. by rewrite decide_False.
Qed.

(** X17: a full sync stops at the first page that brings no new message.
    When the page listed from the stored cursor holds only ids that are
    already stored, [fetch_all_emails] ends after that one batch with 0
    processed, without requesting any message content and without
    changing a row, even when the provider returned a next cursor; the
    cursor and the time are written to the checkpoint. *)
Theorem fetch_all_emails_nothing_new fuel mb now clock batch_size max_emails st
    messages next :
  list_messages mb (usable_token (get_sync_metadata (st_db st) "last_page_token"))
    batch_size = Listed messages next →
  Forall (λ g, g ∈ List.map e_gmail_id (emails (st_db st))) messages →
  ∃ st', fetch_all_emails (S fuel) mb now clock batch_size max_emails st
         = Some (st', 0, 1%nat)
    ∧ st_fetched st' = st_fetched st
    ∧ emails (st_db st') = emails (st_db st)
    ∧ attachments (st_db st') = attachments (st_db st)
    ∧ get_sync_metadata (st_db st') "last_page_token" = Some (default "" next)
    ∧ get_sync_metadata (st_db st') "last_sync_time" = Some (str_of_int (clock 1%nat)).
Proof.
  intros Hlist Hall. unfold fetch_all_emails.
  rewrite <- usable_token_start in Hlist.
  set (start := match get_sync_metadata (st_db st) "last_page_token" with
                | Some t => _ | None => None end) in *.
  cbn [sync_loop]. unfold sync_page.
  rewrite (fetch_email_batch_all_existing mb now st start batch_size messages next Hlist Hall).
  cbn [b_emails b_next_page_token length Z.of_nat Z.add Z.eqb st_db st_fetched].
  rewrite orb_true_r. eexists. split; [reflexivity|].
  cbn [st_fetched st_db]. split; [done|]. split; [done|]. split; [done|].
  unfold get_sync_metadata, update_sync_metadata. cbn [sync_metadata set_sync_metadata].
  split.
  - rewrite lookup_insert_ne by done. by rewrite lookup_insert_eq.
  - by rewrite lookup_insert_eq.
Qed.

Lemma fetch_all_emails_nothing_new_witness :
  ∃ st', fetch_all_emails 1 Sample.listed_m1 "t1" (λ _, 1700000000) 100 None Sample.st1
         = Some (st', 0, 1%nat)
    ∧ st_fetched st' = []
    ∧ get_sync_metadata (st_db st') "last_page_token" = Some "p2".
Proof.
  destruct (fetch_all_emails_nothing_new 0 Sample.listed_m1 "t1" (λ _, 1700000000) 100 None
              Sample.st1 ["m1"] (Some "p2")) as (st' & H1 & H2 & _ & _ & H3 & _).
  - reflexivity.
  - repeat constructor.
  - exists st'. split; [exact H1|]. split; [exact H2|exact H3].
Defined.

Lemma get_total_email_count_all d : get_total_email_count d no_filter = length (emails d).
Proof.
  unfold get_total_email_count. f_equal.
  rewrite (filter_ext _ (λ _, true)) by done.
  induction (emails d) as [|r l IH]; simpl; [done|]. by rewrite IH.
Qed.

Section StatusProperties.

Variable py_int_of_str : string → option Z.
Hypothesis int_of_str_of_int : ∀ z, py_int_of_str (str_of_int z) = Some z.

(** X18: after a page of the full sync on a store that holds no fetch
    counter, [get_sync_status] reports the time of that page, more
    emails exactly when the page came with a non-blank next cursor, a
    fetched total of 0 and the number of stored rows. *)
Theorem sync_page_status mb now clock st page_token batch_size :
  get_sync_metadata (st_db st) "total_emails_fetched" = None →
  let r := sync_page mb now clock st page_token batch_size in
  get_sync_status py_int_of_str (st_db r.1)
  = {| ss_last_sync_time := Some clock;
       ss_has_more_emails :=
         match b_next_page_token r.2 with
         | Some t => negb (bool_decide (PyStr.strip t = ""))
         | None => false
         end;
       ss_total_emails_fetched := 0;
       ss_emails_in_db := length (emails (st_db r.1)) |}.
Proof.
  intros Hnone. cbv zeta.
  pose proof (sync_page_checkpoint mb now clock st page_token batch_size)
    as (Htok & Htime & Hcount).
  cbv zeta in *. rewrite Hnone in Hcount.
  unfold get_sync_status. rewrite Htok, Htime, Hcount.
  rewrite get_total_email_count_all.
  assert (Hstr : truthy (Some (str_of_int clock)) = Some (str_of_int clock)).
  { unfold truthy. case_decide as He; [|done].
    pose proof (int_of_decimal_str_of_int clock) as Hz. rewrite He in Hz. discriminate Hz. }
  rewrite Hstr, int_of_str_of_int. cbn [truthy].
  f_equal. destruct (b_next_page_token _) as [t|]; simpl; [|done].
  case_decide as Ht; [|done]. subst t. done.
Qed.

End StatusProperties.

Lemma sync_page_status_witness :
  ss_has_more_emails
    (get_sync_status int_of_decimal
       (st_db (sync_page Sample.listed_m1 "t1" 1700000000
                 {| st_db := empty_db; st_fetched := [] |} None 50).1)) = true.
Proof.
  rewrite (sync_page_status int_of_decimal int_of_decimal_str_of_int Sample.listed_m1
             "t1" 1700000000 {| st_db := empty_db; st_fetched := [] |} None 50).
  - reflexivity.
  - reflexivity.
Defined.

(** ** Payload extraction *)

Lemma part_induction (P : part → Prop) :
  (∀ mime data aid fn parts,
     (∀ l, parts = Some l → Forall P l) → P (Part mime data aid fn parts)) →
  ∀ p, P p.
Proof.
  intros Hstep. fix IH 1. intros [mime data aid fn [l|]].
  - assert (Hall : Forall P l).
    { induction l as [|q l IHl]; constructor; [apply IH|exact IHl]. }
    apply Hstep. intros l' [= <-]. exact Hall.
  - apply Hstep. intros l' Hl'. discriminate Hl'.
Qed.

Section ExtractionProperties.

Variable urlsafe_b64decode : string → option (list byte).
Variable utf8_decode : list byte → string.
Variable get_attachment : nat → string → string → attachment_result.

Local Abbreviation fetch := (fetch_attachment get_attachment).
Local Abbreviation fetch_dict :=
  (fetch_attachment_dict urlsafe_b64decode utf8_decode get_attachment).
Local Abbreviation walk_part :=
  (process_part urlsafe_b64decode utf8_decode get_attachment).
Local Abbreviation own := (own_state urlsafe_b64decode utf8_decode get_attachment).
Local Abbreviation walk_parts :=
  (process_parts urlsafe_b64decode utf8_decode get_attachment).

Lemma fetch_attachment_calls retries calls msg_id aid :
  (0 < retries → calls < (fetch retries calls msg_id aid).1
                 ∧ (fetch retries calls msg_id aid).1 <= calls + retries)%nat.
Proof.
  revert calls. induction retries as [|n IH]; intros calls Hpos; [lia|].
  simpl. destruct (get_attachment calls msg_id aid); simpl; [|lia].
  destruct n as [|n]; simpl; [lia|].
  specialize (IH (S calls)). simpl in IH. lia.
Qed.

Lemma fetch_attachment_dict_spec calls msg_id aid filename mime :
  filename ≠ "" →
  let r := fetch_dict calls msg_id aid filename mime in
  (calls < r.1 ∧ r.1 <= calls + 3)%nat ∧ attachment_dict_ok r.2.
Proof.
  intros Hfn. cbv zeta. unfold fetch_attachment_dict.
  pose proof (fetch_attachment_calls 3 calls msg_id aid) as Hc.
  destruct (fetch_attachment _ 3 calls msg_id aid) as [calls' r]. simpl in Hc.
  assert (Hfailed : attachment_dict_ok
            {| ad_filename := filename; ad_size := 0; ad_content := None;
               ad_content_preview := "Failed to fetch attachment content";
               ad_mime_type := mime |}).
  { split; [done|]. by right. }
  destruct r as [[data|]|]; cbn [fst snd]; try (split; [lia|done]).
  destruct (urlsafe_b64decode _) as [raw|]; cbn [fst snd]; (split; [lia|]); [|done].
  split; [done|]. left. by eexists.
Qed.

Lemma process_parts_walk msg_id l st :
  (fix walk (l : list part) (st : extract_state) : extract_state :=
     match l with
     | [] => st
     | q :: rest => walk rest (walk_part msg_id q st)
     end) l st = walk_parts msg_id l st.
Proof. revert st. induction l as [|q l IH]; intros st; simpl; [done|]. apply IH. Qed.

Lemma attachment_parts_count l :
  (fix count (l : list part) : nat :=
     match l with
     | [] => 0
     | q :: rest => attachment_parts q + count rest
     end)%nat l = attachment_parts_list l.
Proof. induction l as [|q l IH]; simpl; [done|]. by rewrite IH. Qed.

Lemma walk_ok_trans n m st1 st2 st3 :
  walk_ok n st1 st2 → walk_ok m st2 st3 → walk_ok (n + m) st1 st3.
Proof.
  intros (H1 & H2 & H3 & H4) (K1 & K2 & K3 & K4).
  split; [lia|]. split; [lia|]. split; [lia|]. intros H. by apply K4, H4.
Qed.

Lemma process_parts_ok msg_id l st :
  Forall (λ q, ∀ st, walk_ok (attachment_parts q) st (walk_part msg_id q st)) l →
  walk_ok (attachment_parts_list l) st (walk_parts msg_id l st).
Proof.
  intros Hall. revert st. induction Hall as [|q l Hq _ IH]; intros st; simpl.
  - split; [lia|]. split; [lia|]. split; [lia|]. done.
  - eapply walk_ok_trans; [apply Hq|apply IH].
Qed.

Lemma attachment_parts_eq mime data aid fn parts :
  attachment_parts (Part mime data aid fn parts)
  = (match truthy aid with
     | Some _ => if decide (fn = "") then 0 else 1
     | None => 0
     end
     + match parts with
       | Some l => attachment_parts_list l
       | None => 0
       end)%nat.
Proof.
  destruct parts as [l|]; [|reflexivity].
  rewrite <- attachment_parts_count. reflexivity.
Qed.

Lemma process_part_eq msg_id mime data aid fn parts st :
  walk_part msg_id (Part mime data aid fn parts) st
  = match parts with
    | Some l => walk_parts msg_id l (own msg_id mime data aid fn st)
    | None => own msg_id mime data aid fn st
    end.
Proof.
  destruct parts as [l|].
  - rewrite <- process_parts_walk. unfold own_state. cbn [process_part].
    destruct (match truthy aid with Some _ => _ | None => _ end). reflexivity.
  - unfold own_state. cbn [process_part].
    destruct (match truthy aid with Some _ => _ | None => _ end). reflexivity.
Qed.

Lemma own_state_ok msg_id mime data aid fn st :
  walk_ok (match truthy aid with
           | Some _ => if decide (fn = "") then 0 else 1
           | None => 0
           end) st (own msg_id mime data aid fn st).
Proof.
  unfold own_state. set (body_parts := if bool_decide _ then _ else _).
  assert (Hnone : walk_ok 0 st {| x_body_parts := body_parts;
                                  x_attachments := x_attachments st;
                                  x_calls := x_calls st |}).
  { split; [simpl; lia|]. split; [simpl; lia|]. split; [simpl; lia|]. done. }
  destruct (truthy aid) as [attachment_id|]; [|done].
  destruct (decide (fn = "")) as [|Hfn]; [done|].
  pose proof (fetch_attachment_dict_spec (x_calls st) msg_id attachment_id fn mime Hfn)
    as [Hc Hok].
  destruct (fetch_dict _ _ _ _ _) as [calls att]. cbn [fst snd] in *.
  split; [simpl; rewrite length_app; simpl; lia|].
  split; [simpl; lia|]. split; [simpl; lia|].
  simpl. intros H. apply Forall_app. split; [done|]. constructor; [exact Hok|constructor].
Qed.

Lemma process_part_ok msg_id p :
  ∀ st, walk_ok (attachment_parts p) st (walk_part msg_id p st).
Proof.
  induction p as [mime data aid fn parts IH] using part_induction. intros st.
  rewrite attachment_parts_eq, process_part_eq.
  pose proof (own_state_ok msg_id mime data aid fn st) as Hwalk.
  destruct parts as [l|].
  - eapply walk_ok_trans; [exact Hwalk|]. apply process_parts_ok. by apply IH.
  - rewrite Nat.add_0_r. exact Hwalk.
Qed.

(** X19: [_extract_content_and_attachments] records one attachment for
    every visited part that carries an attachment id and a filename,
    also when its content could not be fetched: each recorded attachment
    is either decoded content with its size, or the placeholder with no
    content and size 0.  Every attachment costs at least one and at most
    three requests to the provider. *)
Theorem extract_attachments_complete payload msg_id :
  let r := _extract_content_and_attachments urlsafe_b64decode utf8_decode get_attachment
             payload msg_id in
  length r.1.2 = visited_attachment_parts payload
  ∧ Forall attachment_dict_ok r.1.2
  ∧ (length r.1.2 <= r.2)%nat
  ∧ (r.2 <= 3 * length r.1.2)%nat.
Proof.
  cbv zeta. unfold _extract_content_and_attachments, visited_attachment_parts.
  set (st0 := {| x_body_parts := []; x_attachments := []; x_calls := 0 |}).
  assert (Hfinish : ∀ n st, walk_ok n st0 st →
            length (x_attachments st) = n
            ∧ Forall attachment_dict_ok (x_attachments st)
            ∧ (length (x_attachments st) <= x_calls st)%nat
            ∧ (x_calls st <= 3 * length (x_attachments st))%nat).
  { intros n st (H1 & H2 & H3 & H4). simpl in *.
    split; [lia|]. split; [apply H4; constructor|]. lia. }
  destruct payload as [mime data aid fn [l|]]; cbn [fst snd].
  - apply Hfinish. apply process_parts_ok.
    apply Forall_forall. intros q _ st. apply process_part_ok.
  - apply Hfinish. apply process_part_ok.
Qed.

End ExtractionProperties.

(** ** Analysis producer, continued *)

Section ProducerInvariants.

Variable py_repr : json → string.
Variable py_int_of_str : string → option Z.
Variable json_loads : string → option json.
Variable clean : string → string.
Variable llm : nat → string → llm_result.

Local Abbreviation validate := (_validate_analysis_results py_repr py_int_of_str).
Local Abbreviation parse := (parse_response py_repr py_int_of_str json_loads).
Local Abbreviation run := (_run_ai_analysis py_repr py_int_of_str json_loads llm).
Local Abbreviation analyze :=
  (analyze_email py_repr py_int_of_str json_loads clean llm).

Lemma fallback_ok : results_ok _get_fallback_analysis.
Proof.
  unfold results_ok. simpl. split; [lia|].
  split; [unfold valid_sentiments; set_solver|].
  repeat split; vm_compute; lia.
Qed.

Lemma py_slice_bound n x y : py_slice n x = Some y → (py_len y <= n)%nat.
Proof.
  destruct x; simpl; try done; intros [= <-]; simpl.
  - apply len_take.
  - rewrite length_firstn. lia.
Qed.

Lemma validate_ok results v : validate results = Some v → results_ok v.
Proof.
  unfold _validate_analysis_results. destruct results as [| | | | | |kv]; try done.
  destruct (py_int _ _) as [p|]; [|done].
  destruct (get kv "sentiment" _) as [| | | |s| |]; try done.
  destruct (py_slice 5 _) as [actions|] eqn:Ha; [|done].
  destruct (py_slice 10 _) as [topics|] eqn:Ht; [|done].
  intros Hv. apply (inj Some) in Hv. subst v. unfold results_ok.
  cbn [v_summary v_priority_score v_priority_reason v_sentiment
       v_suggested_actions v_key_topics v_draft_reply].
  split; [lia|]. split.
  { case_bool_decide; [done|]. unfold valid_sentiments. set_solver. }
  split; [by eapply py_slice_bound|]. split; [by eapply py_slice_bound|].
  repeat split; apply len_take.
Qed.

Lemma parse_response_ok r : results_ok (parse r).
Proof.
  destruct r as [|content]; simpl; [apply fallback_ok|].
  destruct (json_loads _) as [results|]; [|apply fallback_ok].
  destruct (validate results) as [v|] eqn:Hv; [|apply fallback_ok].
  by eapply validate_ok.
Qed.

(** X20: whatever the model does, [_run_ai_analysis] returns a result
    within the bounds: priority between 1 and 5, sentiment one of the
    four allowed values, at most 5 suggested actions and 10 key topics,
    texts of at most 500, 200 and 1000 characters.  It makes exactly one
    model invocation and does not touch the store. *)
Theorem run_ai_analysis_bounds st email_content :
  let r := run st email_content in
  results_ok r.2
  ∧ an_llm_calls r.1 = S (an_llm_calls st)
  ∧ an_db r.1 = an_db st.
Proof.
  cbv zeta. unfold _run_ai_analysis. cbn [fst snd an_llm_calls an_db].
  split; [apply parse_response_ok|done].
Qed.

Lemma mark_same_but_flag d id :
  Forall2 same_but_flag (emails d) (emails (_mark_email_analyzed d id)).
Proof.
  unfold _mark_email_analyzed. cbn [emails set_emails].
  induction (emails d) as [|r l IH]; simpl; constructor; [|exact IH].
  case_bool_decide; [by right|by left].
Qed.

Lemma same_but_flag_refl l : Forall2 same_but_flag l l.
Proof. induction l; constructor; [by left|done]. Qed.

(** The two ways [analyze_email] can go. *)
Lemma analyze_email_cases st timestamp elapsed_ms email_data :
  let r := analyze st timestamp elapsed_ms email_data in
  (_is_already_analyzed (an_db st) (e_id email_data) = true
   ∧ r = (st, _get_existing_analysis (an_db st) (e_id email_data)))
  ∨ (_is_already_analyzed (an_db st) (e_id email_data) = false
     ∧ ∃ res, results_ok res
         ∧ r.2 = Some (analysis_of email_data res timestamp elapsed_ms)
         ∧ an_llm_calls r.1 = S (an_llm_calls st)
         ∧ an_db r.1 = _mark_email_analyzed
                         (_store_analysis (an_db st)
                            (analysis_of email_data res timestamp elapsed_ms))
                         (e_id email_data)).
Proof.
  cbv zeta. unfold analyze_email.
  destruct (_is_already_analyzed _ _); [by left|]. right. split; [done|].
  unfold _run_ai_analysis. cbn [an_db an_llm_calls fst snd].
  eexists. split; [apply parse_response_ok|]. by repeat split.
Qed.

Lemma _store_analysis_frame d a :
  emails (_store_analysis d a) = emails d
  ∧ emails_seq (_store_analysis d a) = emails_seq d
  ∧ attachments (_store_analysis d a) = attachments d
  ∧ sync_metadata (_store_analysis d a) = sync_metadata d.
Proof. unfold _store_analysis. by destruct (email_exists _ _). Qed.

Lemma _store_analysis_wf d a res ts ms data :
  a = analysis_of data res ts ms → results_ok res →
  analysis_wf d → analysis_wf (_store_analysis d a).
Proof.
  intros -> Hres [Hnd Hall]. unfold _store_analysis.
  destruct (email_exists _ _); [|done]. split; simpl.
  - rewrite map_app. simpl. apply NoDup_app. split; [by apply NoDup_map_filter|].
    split; [|apply NoDup_singleton].
    intros x (r & Hx & Hin)%list_elem_of_fmap Hx'%list_elem_of_singleton.
    apply elem_of_List_filter in Hin as [_ Hne].
    unfold has_email_id in Hne. rewrite negb_true_iff, bool_decide_eq_false in Hne.
    apply Hne. by rewrite <- Hx.
  - apply Forall_app. split.
    + apply Forall_forall. intros r [Hr _]%elem_of_List_filter.
      rewrite Forall_forall in Hall. by apply Hall.
    + constructor; [|constructor]. exact Hres.
Qed.

(** X21: [analyze_email] keeps the analysis table well formed: at most
    one row per message, and every row within the bounds (priority 1 to
    5, allowed sentiment, bounded lists and texts), whatever the model
    answered. *)
Theorem analyze_email_analysis_wf st timestamp elapsed_ms email_data :
  analysis_wf (an_db st) →
  analysis_wf (an_db (analyze st timestamp elapsed_ms email_data).1).
Proof.
  intros Hwf.
  destruct (analyze_email_cases st timestamp elapsed_ms email_data)
    as [[_ ->]|(_ & res & Hres & _ & _ & ->)]; [done|].
  unfold analysis_wf, _mark_email_analyzed. cbn [email_analysis set_emails].
  by eapply _store_analysis_wf.
Qed.

Lemma find_other_after_replace (id id' : Z) rows new :
  id ≠ id' → r_email_id new = id' →
  List.find (has_email_id id)
    (List.filter (λ r, negb (has_email_id id' r)) rows ++ [new])
  = List.find (has_email_id id) rows.
Proof.
  intros Hne Hnew. induction rows as [|r rows IH].
  - simpl. unfold has_email_id. rewrite bool_decide_eq_false_2; [done|]. by rewrite Hnew.
  - cbn [List.filter]. destruct (has_email_id id' r) eqn:Hr; cbn [negb].
    + apply bool_decide_eq_true in Hr.
      cbn [List.find].
      replace (has_email_id id r) with false; [exact IH|].
      symmetry. apply bool_decide_eq_false. by rewrite Hr.
    + cbn [app List.find]. destruct (has_email_id id r); [done|exact IH].
Qed.

(** X22: [analyze_email] changes nothing but the analysis of the message
    and its [ai_analyzed] flag: attachments and checkpoint are as before,
    every message row is the same row or the same row with the flag set,
    and the model is invoked at most once. *)
Theorem analyze_email_frame st timestamp elapsed_ms email_data :
  let r := analyze st timestamp elapsed_ms email_data in
  attachments (an_db r.1) = attachments (an_db st)
  ∧ sync_metadata (an_db r.1) = sync_metadata (an_db st)
  ∧ emails_seq (an_db r.1) = emails_seq (an_db st)
  ∧ Forall2 same_but_flag (emails (an_db st)) (emails (an_db r.1))
  ∧ (an_llm_calls st <= an_llm_calls r.1 <= S (an_llm_calls st))%nat
  ∧ (∀ id, id ≠ e_id email_data →
       _get_existing_analysis (an_db r.1) id = _get_existing_analysis (an_db st) id).
Proof.
  cbv zeta.
  destruct (analyze_email_cases st timestamp elapsed_ms email_data)
    as [[_ ->]|(_ & res & _ & _ & Hcalls & Hdb)].
  { cbn [fst]. repeat split; try done; try lia. apply same_but_flag_refl. }
  rewrite Hdb, Hcalls.
  set (a := analysis_of email_data res timestamp elapsed_ms).
  destruct (_store_analysis_frame (an_db st) a) as (He & Hs & Ha & Hm).
  split; [done|]. split; [done|]. split; [done|].
  split.
  { rewrite <- He at 1. apply mark_same_but_flag. }
  split; [lia|].
  intros id Hne. unfold _get_existing_analysis, _mark_email_analyzed.
  cbn [email_analysis set_emails]. unfold _store_analysis.
  destruct (email_exists _ _); [|done]. cbn [email_analysis set_email_analysis].
  by rewrite (find_other_after_replace id (email_id a)).
Qed.

End ProducerInvariants.

Lemma analyze_email_analysis_wf_witness :
  analysis_wf
    (an_db (analyze_email SampleModel.repr SampleModel.int_of_str SampleModel.loads
              SampleModel.clean_html SampleModel.llm_prose SampleModel.st0
              "2024-01-02T10:00:00" 12 Sample.row1).1).
Proof.
  apply (analyze_email_analysis_wf SampleModel.repr SampleModel.int_of_str
           SampleModel.loads SampleModel.clean_html SampleModel.llm_prose SampleModel.st0
           "2024-01-02T10:00:00" 12 Sample.row1).
  split; constructor.
Defined.

(** ** Batch analysis *)

Section BatchProperties.

Variable py_repr : json → string.
Variable py_int_of_str : string → option Z.
Variable json_loads : string → option json.
Variable clean : string → string.
Variable llm : nat → string → llm_result.

Local Abbreviation analyze :=
  (analyze_email py_repr py_int_of_str json_loads clean llm).
Local Abbreviation batch_loop' :=
  (batch_analyze_loop py_repr py_int_of_str json_loads clean llm).
Local Abbreviation batch :=
  (batch_analyze_emails py_repr py_int_of_str json_loads clean llm).

Lemma same_but_flag_trans l1 l2 l3 :
  Forall2 same_but_flag l1 l2 → Forall2 same_but_flag l2 l3 →
  Forall2 same_but_flag l1 l3.
Proof.
  intros H12. revert l3. induction H12 as [|x y l1 l2 Hxy _ IH]; intros l3 H23.
  - by inversion H23.
  - inversion H23 as [|y' z l2' l3' Hyz H23']; subst. constructor; [|by apply IH].
    destruct Hxy as [-> | ->]; [done|]. destruct Hyz as [-> | ->]; by right.
Qed.

Lemma flagged_mono d d' id :
  Forall2 same_but_flag (emails d) (emails d') → flagged d id → flagged d' id.
Proof.
  unfold flagged. generalize (emails d) (emails d'). intros l l' H.
  induction H as [|x y l l' Hxy _ IH]; intros Hf; [constructor|].
  apply Forall_cons in Hf as [Hx Hl]. constructor; [|by apply IH].
  destruct Hxy as [-> | ->]; [done|]. done.
Qed.

Lemma _is_already_analyzed_other d a id :
  id ≠ email_id a →
  _is_already_analyzed (_mark_email_analyzed (_store_analysis d a) (email_id a)) id
  = _is_already_analyzed d id.
Proof.
  intros Hne. unfold _is_already_analyzed, _mark_email_analyzed.
  cbn [email_analysis set_emails]. unfold _store_analysis.
  destruct (email_exists _ _); [|done]. cbn [email_analysis set_email_analysis].
  by rewrite (find_other_after_replace id (email_id a)).
Qed.

(** One call of [analyze_email] inside the batch. *)
Lemma analyze_email_step st timestamp elapsed_ms email_data :
  flags_consistent (an_db st) →
  let r := analyze st timestamp elapsed_ms email_data in
  flags_consistent (an_db r.1)
  ∧ Forall2 same_but_flag (emails (an_db st)) (emails (an_db r.1))
  ∧ flagged (an_db r.1) (e_id email_data)
  ∧ (an_llm_calls st <= an_llm_calls r.1 <= S (an_llm_calls st))%nat
  ∧ is_Some r.2.
Proof.
  intros Hcons. cbv zeta.
  destruct (analyze_email_cases py_repr py_int_of_str json_loads clean llm
              st timestamp elapsed_ms email_data)
    as [[Han ->]|(Han & res & _ & Hres & Hcalls & Hdb)].
  - cbn [fst snd]. split; [done|]. split; [apply same_but_flag_refl|].
    split; [|split; [lia|by apply _is_already_analyzed_get]].
    unfold flagged. eapply Forall_impl; [exact Hcons|]. simpl.
    intros r Hr Hid. destruct (e_ai_analyzed r) eqn:Hflag; [done|].
    rewrite Hid in Hr. rewrite Hr in Han; [discriminate Han|done].
  - rewrite Hdb, Hcalls, Hres.
    set (a := analysis_of email_data res timestamp elapsed_ms).
    destruct (_store_analysis_frame (an_db st) a) as (He & _).
    assert (Hsame : Forall2 same_but_flag (emails (an_db st))
              (emails (_mark_email_analyzed (_store_analysis (an_db st) a)
                         (e_id email_data)))).
    { rewrite <- He at 1. apply mark_same_but_flag. }
    split.
    { unfold flags_consistent in *. unfold _mark_email_analyzed at 2.
      cbn [emails set_emails]. rewrite He.
      apply Forall_forall. intros r' (r & -> & Hin)%list_elem_of_fmap.
      rewrite Forall_forall in Hcons. specialize (Hcons r Hin).
      case_bool_decide as Hid; [done|]. intros Hflag.
      change (e_id email_data) with (email_id a).
      rewrite _is_already_analyzed_other by done. by apply Hcons. }
    split; [exact Hsame|]. split; [|split; [lia|by eexists]].
    unfold flagged, _mark_email_analyzed. cbn [emails set_emails].
    apply Forall_forall. intros r' (r & -> & Hin)%list_elem_of_fmap.
    case_bool_decide; [done|]. intros; contradiction.
Qed.

Lemma batch_analyze_loop_spec clock i selected st results :
  flags_consistent (an_db st) →
  let r := batch_loop' clock i selected st results in
  flags_consistent (an_db r.1)
  ∧ Forall2 same_but_flag (emails (an_db st)) (emails (an_db r.1))
  ∧ Forall (λ e, flagged (an_db r.1) (e_id e)) selected
  ∧ (an_llm_calls st <= an_llm_calls r.1 <= an_llm_calls st + length selected)%nat
  ∧ length r.2 = (length results + length selected)%nat.
Proof.
  cbv zeta. revert i st results.
  induction selected as [|e rest IH]; intros i st results Hcons; simpl.
  - split; [done|]. split; [apply same_but_flag_refl|]. split; [constructor|]. lia.
  - pose proof (analyze_email_step st (clock i).1 (clock i).2 e Hcons)
      as (Hc & Hsame & Hflag & Hcalls & [a Ha]).
    destruct (analyze st (clock i).1 (clock i).2 e) as [st' res]. cbn [fst snd] in *.
    subst res.
    destruct (IH (S i) st' (results ++ [a])%list Hc) as (IH1 & IH2 & IH3 & IH4 & IH5).
    split; [exact IH1|]. split; [by eapply same_but_flag_trans|].
    split; [constructor; [by eapply flagged_mono|exact IH3]|].
    split; [lia|]. rewrite IH5, length_app. simpl. lia.
Qed.

Lemma filter_none {A} (p : A → bool) (l : list A) :
  Forall (λ x, p x = false) l → List.filter p l = [].
Proof. induction 1 as [|x l Hx _ IH]; simpl; [done|]. by rewrite Hx. Qed.

(** X23: on a store where no unflagged message has an analysis row,
    [batch_analyze_emails] returns one analysis per selected message, at
    most [limit] of them, and invokes the model at most once per
    selected message.  Afterwards every selected message carries the
    [ai_analyzed] flag and the store is again consistent; after a batch
    without limit no message is left, so a further batch returns nothing
    and changes nothing. *)
Theorem batch_analyze_emails_spec clock st limit :
  flags_consistent (an_db st) →
  let selected := _get_unanalyzed_emails (an_db st) limit in
  let r := batch clock st limit in
  length r.2 = length selected
  ∧ (0 ≤ limit → (length r.2 <= Z.to_nat limit)%nat)
  ∧ (an_llm_calls st <= an_llm_calls r.1 <= an_llm_calls st + length selected)%nat
  ∧ flags_consistent (an_db r.1)
  ∧ Forall (λ e, flagged (an_db r.1) (e_id e)) selected
  ∧ (limit < 0 → ∀ clock' limit', batch clock' r.1 limit' = (r.1, [])).
Proof.
  intros Hcons. cbv zeta. unfold batch_analyze_emails.
  pose proof (batch_analyze_loop_spec clock 1
                (_get_unanalyzed_emails (an_db st) limit) st [] Hcons)
    as (Hc & Hsame & Hflag & Hcalls & Hlen).
  destruct (batch_loop' clock 1 _ st []) as [st' results] eqn:Hloop.
  cbn [fst snd] in *.
  split; [exact Hlen|].
  split.
  { intros Hl. rewrite Hlen. unfold _get_unanalyzed_emails, sql_limit.
    rewrite (proj2 (Z.ltb_ge _ _)) by done. simpl. rewrite length_firstn. lia. }
  split; [exact Hcalls|]. split; [exact Hc|]. split; [exact Hflag|].
  intros Hneg clock' limit'.
  assert (Hnone : List.filter (λ r, negb (e_ai_analyzed r)) (emails (an_db st')) = []).
  { unfold _get_unanalyzed_emails, sql_limit in Hflag.
    rewrite (proj2 (Z.ltb_lt _ _)) in Hflag by done.
    assert (Hall : ∀ r, r ∈ emails (an_db st) → e_ai_analyzed r = false →
              flagged (an_db st') (e_id r)).
    { intros r Hin Hfl. rewrite Forall_forall in Hflag. apply Hflag.
      rewrite order_by_date_desc_perm. apply elem_of_List_filter.
      by rewrite Hfl. }
    clear Hflag Hloop Hlen Hcalls.
    assert (Hrows : Forall (λ r', e_ai_analyzed r' = true) (emails (an_db st'))).
    { unfold flagged in Hall.
      assert (Hsub : ∀ r', r' ∈ emails (an_db st') →
                ∃ r, r ∈ emails (an_db st) ∧ same_but_flag r r').
      { revert Hsame. generalize (emails (an_db st)) (emails (an_db st')).
        intros l l' H. induction H as [|x y l l' Hxy _ IH]; intros r' Hin.
        - by apply elem_of_nil in Hin.
        - apply elem_of_cons in Hin as [->|Hin].
          + exists x. split; [left|done].
          + destruct (IH r' Hin) as (r & Hr & Hs). exists r. split; [by right|done]. }
      apply Forall_forall. intros r' Hin'.
      destruct (Hsub r' Hin') as (r & Hin & [-> | ->]); [|done].
      destruct (e_ai_analyzed r) eqn:Hfl; [done|].
      specialize (Hall r Hin Hfl). rewrite Forall_forall in Hall.
      rewrite <- Hfl. by apply Hall. }
    apply filter_none. eapply Forall_impl; [exact Hrows|]. simpl. by intros r ->. }
  unfold _get_unanalyzed_emails. rewrite Hnone. simpl.
  unfold sql_limit. destruct (limit' <? 0); [done|]. by rewrite take_nil.
Qed.

End BatchProperties.

Lemma batch_analyze_emails_spec_witness :
  let r := batch_analyze_emails SampleModel.repr SampleModel.int_of_str SampleModel.loads
             SampleModel.clean_html SampleModel.llm_down (λ _, ("2024-01-02T10:00:00", 5))
             SampleModel.st0 10 in
  length r.2 = 1%nat ∧ flags_consistent (an_db r.1).
Proof.
  destruct (batch_analyze_emails_spec SampleModel.repr SampleModel.int_of_str
              SampleModel.loads SampleModel.clean_html SampleModel.llm_down
              (λ _, ("2024-01-02T10:00:00", 5)) SampleModel.st0 10)
    as (H1 & _ & _ & H2 & _).
  - repeat constructor.
  - split; [exact H1|exact H2].
Defined.

(** ** Prompt size and priority list *)

Lemma len_append (a b : string) : PyStr.len (a ++ b) = (PyStr.len a + PyStr.len b)%nat.
Proof.
  unfold PyStr.len. induction a as [|c a IH]; [done|].
  rewrite append_cons. simpl. by rewrite IH.
Qed.

(** X24: the email text handed to the model is bounded: whatever the
    HTML cleaner returns, it holds at most 2000 characters of content, so
    its length is at most 2116 plus the lengths of sender, subject, date
    and category. *)
Theorem prepare_email_content_bounded (clean : string → string) (email_data : email_row) :
  (PyStr.len (_prepare_email_content clean email_data)
   <= 2116 + PyStr.len (e_sender email_data) + PyStr.len (e_subject email_data)
      + PyStr.len (e_date email_data) + PyStr.len (e_category email_data))%nat.
Proof.
  unfold _prepare_email_content.
  set (content := if decide (_ = "") then _ else _).
  pose proof (len_take 2000 content) as Hc.
  rewrite !len_append.
  change (PyStr.len nl) with 1%nat.
  change (PyStr.len "Email Metadata:") with 15%nat.
  change (PyStr.len "- From: ") with 8%nat.
  change (PyStr.len "- Subject: ") with 11%nat.
  change (PyStr.len "- Date: ") with 8%nat.
  change (PyStr.len "- Category: ") with 12%nat.
  change (PyStr.len "Email Content:") with 14%nat.
  change (PyStr.len "  # Limit content to avoid token limits") with 39%nat.
  lia.
Qed.

Lemma insert_by_priority_perm x l : insert_by_priority x l ≡ₚ x :: l.
Proof.
  induction l as [|y l IH]; simpl; [done|].
  destruct (before_by_priority x y); [done|].
  rewrite IH. apply Permutation_swap.
Qed.

Lemma sort_by_priority_perm l : List.fold_right insert_by_priority [] l ≡ₚ l.
Proof.
  induction l as [|x l IH]; simpl; [done|].
  rewrite insert_by_priority_perm. by rewrite IH.
Qed.

Lemma elem_of_join_analysis d e a :
  (e, a) ∈ join_analysis d ↔ e ∈ emails d ∧ a ∈ email_analysis d ∧ r_email_id a = e_id e.
Proof.
  unfold join_analysis. rewrite list_elem_of_In, in_flat_map. split.
  - intros (e' & He' & Hin). apply in_map_iff in Hin as (a' & [= <- <-] & Ha').
    apply filter_In in Ha' as [Ha' Hid]. apply bool_decide_eq_true in Hid.
    by rewrite !list_elem_of_In.
  - intros (He & Ha & Hid). exists e. split; [by apply list_elem_of_In|].
    apply in_map_iff. exists a. split; [done|]. apply filter_In.
    split; [by apply list_elem_of_In|]. by apply bool_decide_eq_true.
Qed.

(** X25: [get_high_priority_emails] lists exactly the stored messages
    whose analysis has priority 4 or more, each with its own analysis
    row, at most [limit] of them (all of them when the limit is
    negative).  A message analysed with the fallback payload, whose
    priority is 3, is never listed. *)
Theorem get_high_priority_emails_spec d limit :
  (∀ e a, (e, a) ∈ get_high_priority_emails d limit →
     e ∈ emails d ∧ a ∈ email_analysis d ∧ r_email_id a = e_id e
     ∧ 4 ≤ r_priority_score a
     ∧ r_priority_score a ≠ v_priority_score _get_fallback_analysis)
  ∧ (0 ≤ limit → (length (get_high_priority_emails d limit) <= Z.to_nat limit)%nat)
  ∧ (limit < 0 → ∀ e a,
       e ∈ emails d → a ∈ email_analysis d → r_email_id a = e_id e →
       4 ≤ r_priority_score a → (e, a) ∈ get_high_priority_emails d limit).
Proof.
  unfold get_high_priority_emails. split; [|split].
  - intros e a Hin. apply sql_limit_sublist in Hin.
    rewrite sort_by_priority_perm in Hin.
    apply elem_of_List_filter in Hin as [Hin Hp]. simpl in Hp.
    apply Z.leb_le in Hp. apply elem_of_join_analysis in Hin as (He & Ha & Hid).
    repeat split; try done. simpl. lia.
  - intros Hl. unfold sql_limit. rewrite (proj2 (Z.ltb_ge _ _)) by done.
    rewrite length_firstn. lia.
  - intros Hl e a He Ha Hid Hp. unfold sql_limit.
    rewrite (proj2 (Z.ltb_lt _ _)) by done.
    rewrite sort_by_priority_perm. apply elem_of_List_filter.
    split; [by apply elem_of_join_analysis|]. simpl. by apply Z.leb_le.
Qed.

(** ** Search and reply detection *)

Lemma occurs_skip sub pre s : occurs sub s = true → occurs sub (pre ++ s) = true.
Proof.
  intros H. induction pre as [|c pre IH]; [exact H|].
  rewrite append_cons. simpl. rewrite IH. apply orb_true_r.
Qed.

Lemma startswith_append sub s : PyStr.startswith sub (sub ++ s) = true.
Proof.
  induction sub as [|c sub IH]; [done|].
  rewrite append_cons. simpl. by rewrite Ascii.eqb_refl.
Qed.

Lemma occurs_here sub s : occurs sub (sub ++ s) = true.
Proof. destruct (sub ++ s) eqn:Heq; simpl; rewrite <- Heq, startswith_append; done. Qed.

Lemma occurs_in_join (x : string) (l : list string) :
  x ∈ l → occurs x (String.concat "," l) = true.
Proof.
  induction l as [|y l IH]; [by intros ?%elem_of_nil|].
  intros [->|Hin]%elem_of_cons.
  - destruct l as [|z l]; simpl.
    + rewrite <- (append_empty_r y) at 2. apply occurs_here.
    + apply occurs_here.
  - destruct l as [|z l]; [by apply elem_of_nil in Hin|].
    change (String.concat "," (y :: z :: l)) with (y ++ ("," ++ String.concat "," (z :: l))).
    apply occurs_skip. apply (occurs_skip x ","). by apply IH.
Qed.

(** X26: [has_reply] holds exactly when the thread id is not empty and
    the store has a message of that thread, dated after the given date
    in text order, whose label list does not contain SENT.  A message
    ingested with the SENT label has SENT in its stored label list, so it
    never counts as a reply. *)
Theorem has_reply_spec d thread_id sent_date :
  (has_reply d thread_id sent_date = true ↔
     ∃ t r, thread_id = Some t ∧ t ≠ ""
            ∧ r ∈ emails d
            ∧ e_thread_id r = Some t
            ∧ String.ltb sent_date (e_date r) = true
            ∧ occurs "SENT" (e_labels r) = false)
  ∧ (∀ labels : list string, "SENT" ∈ labels →
       occurs "SENT" (String.concat "," labels) = true).
Proof.
  split; [|intros labels; apply occurs_in_join].
  unfold has_reply, has_incoming_after.
  destruct thread_id as [t|]; simpl.
  - case_decide as Ht.
    + split; [done|]. intros (t' & r & [= <-] & Hne & _). done.
    + rewrite existsb_exists. split.
      * intros (r & Hin & Hr). apply andb_true_iff in Hr as [Hr Hl].
        apply andb_true_iff in Hr as [Hth Hd]. apply bool_decide_eq_true in Hth.
        apply negb_true_iff in Hl. exists t, r.
        repeat split; try done. by apply list_elem_of_In.
      * intros (t' & r & [= <-] & _ & Hin & Hth & Hd & Hl). exists r.
        split; [by apply list_elem_of_In|].
        rewrite Hd, Hl. rewrite bool_decide_eq_true_2 by done. done.
  - split; [done|]. intros (t & r & Hth & _). discriminate Hth.
Qed.

(** X27: [search_emails] returns stored rows only, each matching the
    query in subject, sender, recipients or body, in non-increasing date
    order and no more than [limit] of them; without limit, every row
    whose subject contains the query text in any letter case is
    returned. *)
Theorem search_emails_spec d query limit :
  let like := contains_pattern query in
  (∀ r, r ∈ search_emails d query limit →
     r ∈ emails d
     ∧ (sql_like like (e_subject r) || sql_like like (e_sender r)
        || sql_like like (e_to_recipients r) || sql_like like (e_body r)) = true)
  ∧ Sorted date_desc (search_emails d query limit)
  ∧ (0 ≤ limit → (length (search_emails d query limit) <= Z.to_nat limit)%nat)
  ∧ (limit < 0 → ∀ r pre found post,
       r ∈ emails d → e_subject r = pre ++ found ++ post →
       PyStr.lower query = PyStr.lower found →
       r ∈ search_emails d query limit).
Proof.
  cbv zeta. unfold search_emails. split; [|split; [|split]].
  - intros r Hin. apply sql_limit_sublist in Hin.
    rewrite order_by_date_desc_perm in Hin. by apply elem_of_List_filter in Hin.
  - unfold sql_limit. destruct (limit <? 0); [|apply Sorted_firstn];
      apply order_by_date_desc_sorted.
  - intros Hl. unfold sql_limit. rewrite (proj2 (Z.ltb_ge _ _)) by done.
    rewrite length_firstn. lia.
  - intros Hl r pre found post Hin Hsub Hlow. unfold sql_limit.
    rewrite (proj2 (Z.ltb_lt _ _)) by done.
    rewrite order_by_date_desc_perm. apply elem_of_List_filter. split; [done|].
    assert (Hlike : sql_like (contains_pattern query) (e_subject r) = true).
    { rewrite Hsub. unfold contains_pattern.
      change ("%" ++ query ++ "%") with (String "%" (query ++ "%")).
      apply sql_like_skip. rewrite sql_like_percent.
      by rewrite sql_like_same_letters. }
    by rewrite Hlike.
Qed.
